(** * holiday-sorter: call handlers and their schedules

    A shallow embedding of [holiday-sorter.py]: the incremental XML record
    decoder ([parse_large_xml]), the three fetchers, the system-handler
    filter and composite-key deduplication of [get_call_handlers], the
    join of [resolve_schedules], and the guard of the main block.

    Conventions of the embedding.
    - A Python [str] is a [string] (characters below 128; [lower] folds
      A-Z, [strip] removes the ASCII white space Python removes).
    - A value held in a decoded record is [pyval = option string]:
      [None] is Python's [None] (the [text] of an empty element),
      [Some s] a [str].
    - A record (a [dict] with [str] keys) is a [gmap string pyval]; a
      missing key is [None] at the map level, so [h !! k] is
      [None] (key absent), [Some None] (present, value [None]) or
      [Some (Some s)].
    - Code that can raise returns [result A = exn + A]. *)

From Stdlib Require Import String Ascii ZArith.
From stdpp Require Import gmap strings list fin_maps.

Local Open Scope string_scope.
Local Open Scope list_scope.
Set Warnings "-register-all".

(** ** Python values, exceptions *)

Abbreviation pyval := (option string).
Abbreviation record := (gmap string (option string)).

Inductive exn : Type :=
  | KeyError (key : string)
  | AttributeError
  | TypeError.

Definition result (A : Type) : Type := (exn + A)%type.

Definition raise {A} (e : exn) : result A := inl e.
Definition ret {A} (a : A) : result A := inr a.
Definition bind {A B} (c : result A) (k : A -> result B) : result B :=
  match c with
  | inl e => inl e
  | inr a => k a
  end.

Notation "'let*' x ':=' c 'in' k" := (bind c (fun x => k))
  (at level 10, x name, c at level 100, k at level 200).

Definition returns {A} (c : result A) : Prop := exists a, c = inr a.

(** ** The [str] methods the script calls *)

Module Str.

Definition lower_ascii (c : ascii) : ascii :=
  let n := nat_of_ascii c in
  if (65 <=? n)%nat && (n <=? 90)%nat then ascii_of_nat (n + 32) else c.

(** [s.lower()] *)
Fixpoint lower (s : string) : string :=
  match s with
  | EmptyString => EmptyString
  | String c s' => String (lower_ascii c) (lower s')
  end.

(** [c.isspace()] on code points below 128 *)
Definition isspace (c : ascii) : bool :=
  let n := nat_of_ascii c in
  ((9 <=? n)%nat && (n <=? 13)%nat) || ((28 <=? n)%nat && (n <=? 32)%nat).

(** [s.lstrip()] *)
Fixpoint lstrip (s : string) : string :=
  match s with
  | EmptyString => EmptyString
  | String c s' => if isspace c then lstrip s' else s
  end.

(** [s.rstrip()] *)
Fixpoint rstrip (s : string) : string :=
  match s with
  | EmptyString => EmptyString
  | String c s' =>
      match rstrip s' with
      | EmptyString => if isspace c then EmptyString else String c EmptyString
      | r => String c r
      end
  end.

(** [s.strip()] *)
Definition strip (s : string) : string := rstrip (lstrip s).

(** [s.endswith(suffix)] *)
Fixpoint endswith (s suffix : string) : bool :=
  if String.eqb s suffix then true
  else match s with
       | EmptyString => false
       | String _ s' => endswith s' suffix
       end.

(** [s.split('}')[-1]]: what follows the last closing brace, the whole
    string when there is none. *)
Fixpoint after_last_brace (s : string) : string :=
  match s with
  | EmptyString => EmptyString
  | String c s' =>
      if existsb (Ascii.eqb "}"%char) (list_ascii_of_string s')
      then after_last_brace s'
      else if Ascii.eqb c "}"%char then s' else s
  end.

(** [sep.join(parts)] on parts that are all [str] *)
Fixpoint join (sep : string) (parts : list string) : string :=
  match parts with
  | [] => ""
  | [p] => p
  | p :: rest => p +:+ sep +:+ join sep rest
  end.

End Str.

(** How an f-string renders a value. *)
Definition format (v : pyval) : string :=
  match v with
  | Some s => s
  | None => "None"
  end.

(** Truth value of a record value: [None] and [''] are false. *)
Definition truthy (v : pyval) : bool :=
  match v with
  | Some s => negb (String.eqb s "")
  | None => false
  end.

(** [d.get(k, default)] *)
Definition dict_get {K} `{Countable K} {V} (d : gmap K V) (k : K) (default : V) : V :=
  match d !! k with
  | Some v => v
  | None => default
  end.

(** [d[k]] on a record *)
Definition subscript (d : record) (k : string) : result pyval :=
  match d !! k with
  | Some v => ret v
  | None => raise (KeyError k)
  end.

(** [v.lower()], [v.strip()]: [None] has neither method. *)
Definition lower (v : pyval) : result string :=
  match v with
  | Some s => ret (Str.lower s)
  | None => raise AttributeError
  end.

Definition strip (v : pyval) : result string :=
  match v with
  | Some s => ret (Str.strip s)
  | None => raise AttributeError
  end.

(** [sep.join(parts)]: a part that is [None] is a [TypeError]. *)
Fixpoint all_str (parts : list pyval) : result (list string) :=
  match parts with
  | [] => ret []
  | Some s :: rest => let* ss := all_str rest in ret (s :: ss)
  | None :: _ => raise TypeError
  end.

Definition join (sep : string) (parts : list pyval) : result string :=
  let* ss := all_str parts in ret (Str.join sep ss).

(** ** The record decoder: [parse_large_xml]

    [ET.iterparse] is library code; what the generator sees of it is the
    stream of [end] events, one per element, children before their parent
    and siblings in document order, each carrying the element object with
    its tag, text and child elements in place.  A document is therefore
    given as the tree the parser builds.  The generator clears every
    element it has emitted, and a cleared element is still a child of its
    parent when the parent's own [end] event arrives: the walk returns,
    with the records, the element as the generator leaves it. *)

Inductive element : Type :=
  Element (tag : string) (text : pyval) (children : list element).

Definition tag_of (e : element) : string := let 'Element t _ _ := e in t.
Definition text_of (e : element) : pyval := let 'Element _ x _ := e in x.
Definition children_of (e : element) : list element := let 'Element _ _ cs := e in cs.

(** [elem.clear()] *)
Definition clear (e : element) : element := Element (tag_of e) None [].

(** [{child.tag.split('}')[-1]: child.text for child in elem}] *)
Definition child_record (children : list element) : record :=
  foldl (fun r child => <[Str.after_last_brace (tag_of child) := text_of child]> r)
        ∅ children.

Fixpoint iterparse_end (element_name : string) (elem : element)
  : list record * element :=
  let 'Element tag text children := elem in
  let below :=
    (fix each (cs : list element) : list record * list element :=
       match cs with
       | [] => ([], [])
       | c :: cs' =>
           let seen := iterparse_end element_name c in
           let later := each cs' in
           (seen.1 ++ later.1, seen.2 :: later.2)
       end) children in
  if Str.endswith tag element_name
  then (below.1 ++ [child_record below.2], clear elem)
  else (below.1, Element tag text below.2).

(** [list(parse_large_xml(xml_data, element_name))] *)
Definition parse_large_xml (xml_data : element) (element_name : string) : list record :=
  (iterparse_end element_name xml_data).1.

(** ** The API and the three fetchers *)

Inductive http : Type :=
  | Response (status_code : Z) (content : element)
  | RequestException.

Record api : Type := {
  schedules_url : http;
  schedulesetmembers_url : string -> http;
  callhandlers_url : http
}.

Definition get_schedules (unity : api) : list record :=
  match schedules_url unity with
  | Response status_code content =>
      if (status_code =? 200)%Z then parse_large_xml content "Schedule" else []
  | RequestException => []
  end.

Definition get_schedule_set_members (unity : api) (schedule_set_id : string) : list record :=
  match schedulesetmembers_url unity schedule_set_id with
  | Response status_code content =>
      if (status_code =? 200)%Z then parse_large_xml content "ScheduleSetMember" else []
  | RequestException => []
  end.

(** ** The handler classifier of [get_call_handlers] *)

Definition system_names : list string :=
  ["auto attendant"; "opening greeting"; "operator"].

Definition name_in (s : string) (names : list string) : bool :=
  existsb (String.eqb s) names.

(** The condition of the [system_handlers] comprehension; [or] evaluates
    its operands left to right and stops at the first true one. *)
Definition is_system_handler (handler : record) : result bool :=
  let* undeletable := lower (dict_get handler "Undeletable" (Some "false")) in
  if String.eqb undeletable "true" then ret true
  else if truthy (dict_get handler "DtmfAccessId" None) then ret true
  else
    let* stripped := strip (dict_get handler "DisplayName" (Some "")) in
    ret (name_in (Str.lower stripped) system_names).

Fixpoint system_handlers (all_handlers : list record) : result (list record) :=
  match all_handlers with
  | [] => ret []
  | handler :: rest =>
      let* keep := is_system_handler handler in
      let* kept := system_handlers rest in
      ret (if keep then handler :: kept else kept)
  end.

Definition composite_key (handler : record) : result string :=
  let* stripped := strip (dict_get handler "DisplayName" (Some "")) in
  ret (Str.lower stripped +:+ "|" +:+ format (dict_get handler "DtmfAccessId" (Some ""))).

Definition duplicate_warning (handler : record) (key : string) : string :=
  "Duplicate handler detected: "
  +:+ format (dict_get handler "DisplayName" (Some "Unnamed Handler"))
  +:+ " with key " +:+ key +:+ ". Keeping the first instance.".

(** [unique_handlers] is a [dict]: it keeps its keys in insertion order,
    so it is an association list here; [warnings] collects what
    [logger.warning] is given. *)
Definition key_in (key : string) (unique_handlers : list (string * record)) : bool :=
  existsb (fun entry => String.eqb key entry.1) unique_handlers.

Fixpoint deduplicate (handlers : list record)
    (unique_handlers : list (string * record)) (warnings : list string)
  : result (list (string * record) * list string) :=
  match handlers with
  | [] => ret (unique_handlers, warnings)
  | handler :: rest =>
      let* key := composite_key handler in
      if negb (key_in key unique_handlers)
      then deduplicate rest (unique_handlers ++ [(key, handler)]) warnings
      else deduplicate rest unique_handlers
             (warnings ++ [duplicate_warning handler key])
  end.

(** The filter and the deduplication applied to the decoded handlers:
    the kept handlers, [list(unique_handlers.values())], and the warnings. *)
Definition classify (all_handlers : list record) : result (list record * list string) :=
  let* selected := system_handlers all_handlers in
  let* unique := deduplicate selected [] [] in
  ret (unique.1.*2, unique.2).

(** An [AttributeError] is not a [requests.RequestException]: it leaves
    the function. *)
Definition get_call_handlers (unity : api) : result (list record * list string) :=
  match callhandlers_url unity with
  | Response status_code content =>
      if (status_code =? 200)%Z
      then classify (parse_large_xml content "Callhandler")
      else ret ([], [])
  | RequestException => ret ([], [])
  end.

(** ** Schedule set members of the handlers *)

Definition unique_schedule_set_ids (call_handlers : list record) : gset pyval :=
  list_to_set
    (filter (fun id => truthy id = true)
            (map (fun handler => dict_get handler "ScheduleSetObjectId" None)
                 call_handlers)).

Definition get_all_schedule_set_members (unity : api) (call_handlers : list record)
  : gmap pyval (list record) :=
  set_fold (fun schedule_set_id schedule_set_members_map =>
              if truthy schedule_set_id
              then <[schedule_set_id := get_schedule_set_members unity (format schedule_set_id)]>
                     schedule_set_members_map
              else schedule_set_members_map)
           ∅ (unique_schedule_set_ids call_handlers).

(** ** The resolver: [resolve_schedules] *)

Record row : Type := {
  CallHandlerName : pyval;
  Schedule : string
}.

(** [{schedule['ObjectId']: schedule['DisplayName'] for schedule in schedules}];
    a later schedule with the same id replaces the earlier one. *)
Fixpoint schedule_map_of (schedules : list record) (schedule_map : gmap pyval pyval)
  : result (gmap pyval pyval) :=
  match schedules with
  | [] => ret schedule_map
  | schedule :: rest =>
      let* object_id := subscript schedule "ObjectId" in
      let* display_name := subscript schedule "DisplayName" in
      schedule_map_of rest (<[object_id := display_name]> schedule_map)
  end.

(** The [resolved_schedules] comprehension: the condition is evaluated
    first, the element expression only for the members that pass it. *)
Fixpoint resolved_schedules (schedule_map : gmap pyval pyval)
    (schedule_set_members : list record) : result (list pyval) :=
  match schedule_set_members with
  | [] => ret []
  | member :: rest =>
      let* exclude := lower (dict_get member "Exclude" (Some "false")) in
      if negb (String.eqb exclude "true")
      then
        let* schedule_object_id := subscript member "ScheduleObjectId" in
        let* more := resolved_schedules schedule_map rest in
        ret (dict_get schedule_map schedule_object_id (Some "Unknown Schedule") :: more)
      else resolved_schedules schedule_map rest
  end.

Definition is_empty {A} (l : list A) : bool :=
  match l with
  | [] => true
  | _ => false
  end.

(** One turn of the [for handler in call_handlers] loop, on the list
    accumulated so far. *)
Definition resolve_handler (schedule_map : gmap pyval pyval)
    (schedule_set_members_map : gmap pyval (list record))
    (concatenated_list : list row) (handler : record) : result (list row) :=
  let handler_name := dict_get handler "DisplayName" (Some "Unnamed Handler") in
  let schedule_set_id := dict_get handler "ScheduleSetObjectId" None in
  if negb (truthy schedule_set_id)
  then ret (concatenated_list ++
            [{| CallHandlerName := handler_name; Schedule := "No Schedule" |}])
  else
    let schedule_set_members := dict_get schedule_set_members_map schedule_set_id [] in
    if is_empty schedule_set_members
    then ret (concatenated_list ++
              [{| CallHandlerName := handler_name; Schedule := "No Schedule" |}])
    else
      let* resolved := resolved_schedules schedule_map schedule_set_members in
      if is_empty resolved
      then ret (concatenated_list ++
                [{| CallHandlerName := handler_name; Schedule := "No Schedule" |}])
      else
        let* joined := join ", " resolved in
        ret (concatenated_list ++
             [{| CallHandlerName := handler_name; Schedule := joined |}]).

Fixpoint for_each_handler (schedule_map : gmap pyval pyval)
    (schedule_set_members_map : gmap pyval (list record))
    (call_handlers : list record) (concatenated_list : list row)
  : result (list row) :=
  match call_handlers with
  | [] => ret concatenated_list
  | handler :: rest =>
      let* concatenated_list' :=
        resolve_handler schedule_map schedule_set_members_map concatenated_list handler in
      for_each_handler schedule_map schedule_set_members_map rest concatenated_list'
  end.

(** [schedule_sets] is passed and never read. *)
Definition resolve_schedules (call_handlers schedules schedule_sets : list record)
    (schedule_set_members_map : gmap pyval (list record)) : result (list row) :=
  let* schedule_map := schedule_map_of schedules ∅ in
  for_each_handler schedule_map schedule_set_members_map call_handlers [].

(** ** The main block *)

Definition newline : string := String (ascii_of_nat 10) EmptyString.

Definition csv_line (entry : row) : string :=
  format (CallHandlerName entry) +:+ "," +:+ Schedule entry +:+ newline.

Definition csv_file (concatenated_list : list row) : list string :=
  ("CallHandlerName,Schedule" +:+ newline) :: map csv_line concatenated_list.

Inductive outcome : Type :=
  | Reported (concatenated_list : list row) (file : list string)
  | CouldNotRetrieve.

(** What follows the two fetches. *)
Definition join_and_report (unity : api) (call_handlers schedules : list record)
  : result outcome :=
  if negb (is_empty call_handlers) && negb (is_empty schedules)
  then
    let schedule_set_members_map := get_all_schedule_set_members unity call_handlers in
    let* concatenated_list :=
      resolve_schedules call_handlers schedules [] schedule_set_members_map in
    ret (Reported concatenated_list (csv_file concatenated_list))
  else ret CouldNotRetrieve.

Definition main (unity : api) : result outcome :=
  let* fetched := get_call_handlers unity in
  let call_handlers := fetched.1 in
  let schedules := get_schedules unity in
  join_and_report unity call_handlers schedules.

(** ** Shapes of records

    What the script assumes of a field where it does not say so: a field
    it subscripts must be there, a value it calls a [str] method on must
    be a [str]. *)

Definition has_field (d : record) (k : string) : Prop := is_Some (d !! k).
Definition str_field (d : record) (k : string) : Prop := exists s, d !! k = Some (Some s).
Definition not_null (d : record) (k : string) : Prop := d !! k <> Some None.

(** ** The resolved [Schedule], in the words of the specification

    Drop every member whose [Exclude] equals "true" whatever its case, map
    the [ScheduleObjectId] of each one left through the schedule lookup
    with "Unknown Schedule" where it finds nothing, join with ", ", and
    say "No Schedule" when nothing is left. *)

Definition equals_ignoring_case (v : option pyval) (s : string) : bool :=
  match v with
  | Some (Some x) => String.eqb (Str.lower x) s
  | _ => false
  end.

Definition excluded (member : record) : bool :=
  equals_ignoring_case (member !! "Exclude") "true".

Definition looked_up (schedule_map : gmap pyval pyval) (member : record) : string :=
  match member !! "ScheduleObjectId" with
  | Some id =>
      match schedule_map !! id with
      | Some (Some n) => n
      | _ => "Unknown Schedule"
      end
  | None => "Unknown Schedule"
  end.

Definition spec_schedule (schedule_map : gmap pyval pyval) (members : list record)
  : string :=
  let surviving := List.filter (fun member => negb (excluded member)) members in
  let resolved := map (looked_up schedule_map) surviving in
  if is_empty resolved then "No Schedule" else Str.join ", " resolved.

(** What the comprehension needs of a member: an [Exclude] it can
    lower, and a [ScheduleObjectId] to subscript unless the member is
    dropped; and of the lookup: names it can join. *)
Definition resolvable (member : record) : Prop :=
  not_null member "Exclude"
  /\ (excluded member = false -> has_field member "ScheduleObjectId").

Definition str_names (schedule_map : gmap pyval pyval) : Prop :=
  forall id v, schedule_map !! id = Some v -> is_Some v.

(** What the dict comprehension needs of a schedule. *)
Definition schedule_shape (schedule : record) : Prop :=
  has_field schedule "ObjectId" /\ str_field schedule "DisplayName".

Definition index_shape (schedule_set_members_map : gmap pyval (list record)) : Prop :=
  forall id members,
    schedule_set_members_map !! id = Some members -> Forall resolvable members.

(** Handlers that get the sentinel: no usable [ScheduleSetObjectId], or
    one the member index has nothing for. *)
Definition without_members (idx : gmap pyval (list record)) (handler : record) : Prop :=
  handler !! "ScheduleSetObjectId" = None
  \/ handler !! "ScheduleSetObjectId" = Some None
  \/ handler !! "ScheduleSetObjectId" = Some (Some "")
  \/ exists id, handler !! "ScheduleSetObjectId" = Some id
       /\ (idx !! id = None \/ idx !! id = Some []).

(** The row the loop appends for one handler, taken alone. *)
Definition row_from (schedule_map : gmap pyval pyval)
    (schedule_set_members_map : gmap pyval (list record))
    (handler : record) (r : row) : Prop :=
  resolve_handler schedule_map schedule_set_members_map [] handler = inr [r].

(** [n] is the display name of one of the schedules. *)
Definition schedule_name (schedules : list record) (n : string) : Prop :=
  exists schedule, schedule ∈ schedules /\ schedule !! "DisplayName" = Some (Some n).

(** Every value of the lookup is the display name of a schedule. *)
Definition names_of (schedules : list record) (schedule_map : gmap pyval pyval) : Prop :=
  forall id v, schedule_map !! id = Some v ->
    exists n, v = Some n /\ schedule_name schedules n.

(** A part of a resolved [Schedule]: a schedule's name or the sentinel. *)
Definition resolved_part (schedules : list record) (n : string) : Prop :=
  n = "Unknown Schedule" \/ schedule_name schedules n.

(** The [Schedule] of a row is a sentinel or a join of known parts. *)
Definition degraded (schedules : list record) (r : row) : Prop :=
  Schedule r = "No Schedule"
  \/ exists names, names <> [] /\ Forall (resolved_part schedules) names
       /\ Schedule r = Str.join ", " names.


(** ** Sample data *)

Module Sample.

Definition fields (l : list (string * pyval)) : record := list_to_map l.

Definition operator : record :=
  fields [("DisplayName", Some "Operator"); ("ScheduleSetObjectId", Some "SS1")].

Definition business_hours : record :=
  fields [("ObjectId", Some "SC1"); ("DisplayName", Some "Business Hours")].

Definition schedule_without_id : record :=
  fields [("DisplayName", Some "Weekdays")].

Definition schedule_without_name : record :=
  fields [("ObjectId", Some "SC1")].

Definition member_sc1 : record :=
  fields [("ScheduleObjectId", Some "SC1"); ("Exclude", Some "false")].

Definition member_sc2_excluded : record :=
  fields [("ScheduleObjectId", Some "SC2"); ("Exclude", Some "true")].

Definition member_without_schedule : record :=
  fields [("Exclude", Some "false")].

(** [<ScheduleSetMember><ScheduleObjectId>SC1</ScheduleObjectId><Exclude/></ScheduleSetMember>] *)
Definition member_null_exclude : record :=
  fields [("ScheduleObjectId", Some "SC1"); ("Exclude", None)].

(** A handler whose schedule set the index does not know. *)
Definition unlinked : record :=
  fields [("DisplayName", Some "CallHandlerName"); ("ScheduleSetObjectId", Some "SS2")].

(** A handler decoded without a [DisplayName] child. *)
Definition unnamed : record :=
  fields [("ScheduleSetObjectId", Some "SS1")].

(** Decoded call handlers. *)
Definition operator_shouting : record :=
  fields [("DisplayName", Some "  OPERATOR "); ("Undeletable", Some "TRUE")].

Definition sales : record :=
  fields [("DisplayName", Some "Sales"); ("DtmfAccessId", Some "100")].

Definition mailbox : record :=
  fields [("DisplayName", Some "Jane"); ("Undeletable", Some "false")].




Definition index_of (members : list record) : gmap pyval (list record) :=
  {[ Some "SS1" := members ]}.

Definition index : gmap pyval (list record) :=
  index_of [member_sc1; member_sc2_excluded].

End Sample.

(** ** The classifier, in the words of the specification *)

Definition present_nonempty (v : option pyval) : bool :=
  match v with
  | Some (Some s) => negb (String.eqb s "")
  | _ => false
  end.

Definition trimmed_lowercased_in (v : option pyval) (names : list string) : bool :=
  match v with
  | Some (Some s) => name_in (Str.lower (Str.strip s)) names
  | _ => false
  end.

(** The selection predicate: a disjunction of three conditions. *)
Definition spec_selected (handler : record) : bool :=
  equals_ignoring_case (handler !! "Undeletable") "true"
  || present_nonempty (handler !! "DtmfAccessId")
  || trimmed_lowercased_in (handler !! "DisplayName") system_names.




(** The fields the classifier calls [str] methods on, or formats. *)
Definition flags_shape (handler : record) : Prop :=
  not_null handler "Undeletable" /\ not_null handler "DisplayName".


(** ** The decoder, in the words of the specification *)

(** The elements of a document in the order of their [end] events. *)
Fixpoint end_order (elem : element) : list element :=
  let 'Element _ _ children := elem in
  (fix each (cs : list element) : list element :=
     match cs with
     | [] => []
     | c :: cs' => end_order c ++ each cs'
     end) children ++ [elem].

(** The test the generator makes, and the test the specification words. *)
Definition tag_ends_with (element_name : string) (elem : element) : bool :=
  Str.endswith (tag_of elem) element_name.

Definition local_name_is (element_name : string) (elem : element) : bool :=
  String.eqb (Str.after_last_brace (tag_of elem)) element_name.

(** The text a parent finds in a child: none when the child was emitted
    itself, and so cleared, before the parent ended. *)
Definition text_seen (element_name : string) (child : element) : pyval :=
  if tag_ends_with element_name child then None else text_of child.

Definition record_for (element_name : string) (elem : element) : record :=
  foldl (fun r child =>
           <[Str.after_last_brace (tag_of child) := text_seen element_name child]> r)
        ∅ (children_of elem).

(** The last element of [children] whose local tag is [k]. *)
Definition last_named (k : string) (children : list element) : option element :=
  last (List.filter (fun child => String.eqb (Str.after_last_brace (tag_of child)) k)
                    children).

(** The element tree as the generator leaves it. *)
Fixpoint left_behind (element_name : string) (elem : element) : element :=
  let 'Element tag text children := elem in
  if Str.endswith tag element_name then clear elem
  else Element tag text
         ((fix each (cs : list element) : list element :=
             match cs with
             | [] => []
             | c :: cs' => left_behind element_name c :: each cs'
             end) children).

Module SampleXml.

Definition leaf (tag value : string) : element := Element tag (Some value) [].

(** [<Schedules><HolidaySchedule><DisplayName>New Year</DisplayName>
     </HolidaySchedule></Schedules>] *)
Definition holidays : element :=
  Element "Schedules" None
    [Element "HolidaySchedule" None [leaf "DisplayName" "New Year"]].

(** [<Foos><Foo><Foo>abc</Foo></Foo></Foos>] *)
Definition nested : element :=
  Element "Foos" None [Element "Foo" None [leaf "Foo" "abc"]].

(** Three [Foo] elements: one namespaced, one not, one with mixed-case
    child tags and an empty child. *)
Definition three_foos : element :=
  Element "Root" None
    [Element "{urn:x}Foo" None [leaf "{urn:x}Id" "1"];
     Element "Foo" None [leaf "Id" "2"];
     Element "Foo" None [leaf "iD" "3"; Element "Note" None []]].

Definition callhandlers : element :=
  Element "Callhandlers" None
    [Element "Callhandler" None
       [leaf "DisplayName" "Operator"; leaf "ScheduleSetObjectId" "SS1"]].

Definition schedules : element :=
  Element "Schedules" None
    [Element "Schedule" None
       [leaf "ObjectId" "SC1"; leaf "DisplayName" "Business Hours"]].

Definition members : element :=
  Element "ScheduleSetMembers" None
    [Element "ScheduleSetMember" None
       [leaf "ScheduleObjectId" "SC1"; leaf "Exclude" "false"];
     Element "ScheduleSetMember" None
       [leaf "ScheduleObjectId" "SC2"; leaf "Exclude" "true"]].

Definition unity : api :=
  {| schedules_url := Response 200 schedules;
     schedulesetmembers_url := fun _ => Response 200 members;
     callhandlers_url := Response 200 callhandlers |}.

(** The same server with the schedules endpoint failing. *)
Definition unity_schedules_down : api :=
  {| schedules_url := Response 503 (Element "html" None []);
     schedulesetmembers_url := fun _ => Response 200 members;
     callhandlers_url := Response 200 callhandlers |}.

End SampleXml.

(** ** Further notions used by the properties of the rest of the script *)

(** A schedule the dict comprehension can read: both subscripts succeed. *)
Definition keyed (schedule : record) : Prop :=
  has_field schedule "ObjectId" /\ has_field schedule "DisplayName".

(** The last schedule of the list whose [ObjectId] is [id]. *)
Definition last_with_id (id : pyval) (schedules : list record) : option record :=
  last (List.filter (fun schedule => bool_decide (schedule !! "ObjectId" = Some id))
                    schedules).

(** [handler.get("ScheduleSetObjectId")] *)
Definition schedule_set_id_of (handler : record) : pyval :=
  dict_get handler "ScheduleSetObjectId" None.

(** A request that gives the script nothing: a transport error, or a
    status other than 200. *)
Definition failed (answer : http) : Prop :=
  forall content, answer <> Response 200 content.

(** How often a character occurs in a string, and the commas of a line. *)
Fixpoint count_char (c : ascii) (s : string) : nat :=
  match s with
  | EmptyString => 0
  | String x s' => (if Ascii.eqb x c then 1 else 0) + count_char c s'
  end.

Definition commas (s : string) : nat := count_char ","%char s.

Definition sum_list (l : list nat) : nat := foldr Nat.add 0 l.

Module SampleRun.

(** The sample server with the member requests failing. *)
Definition unity_members_down : api :=
  {| schedules_url := Response 200 SampleXml.schedules;
     schedulesetmembers_url := fun _ => RequestException;
     callhandlers_url := Response 200 SampleXml.callhandlers |}.

End SampleRun.

(** No element of the subtree is one the generator would emit. *)
Definition quiet (element_name : string) (elem : element) : Prop :=
  List.filter (tag_ends_with element_name) (end_order elem) = [].

(** The shape of the three API answers: a root that is not emitted, whose
    children are the emitted elements, with nothing to emit below them. *)
Definition flat_document (element_name : string) (root : element) : Prop :=
  tag_ends_with element_name root = false
  /\ Forall (fun item =>
               tag_ends_with element_name item = true
               /\ Forall (quiet element_name) (children_of item))
            (children_of root).

Definition has_brace (s : string) : bool :=
  existsb (Ascii.eqb "}"%char) (list_ascii_of_string s).

Definition local_tag (child : element) : string :=
  Str.after_last_brace (tag_of child).

(** The handler with its [DisplayName] trimmed and lowercased. *)
Definition normalised (handler : record) (name : string) : record :=
  <["DisplayName" := Some (Str.lower (Str.strip name))]> handler.

(** A string that does not begin with white space. *)
Definition starts_clean (s : string) : Prop :=
  match s with
  | EmptyString => True
  | String c _ => Str.isspace c = false
  end.

(** The members of a handler's schedule set, as the loop body reads them. *)
Definition members_of (idx : gmap pyval (list record)) (handler : record)
  : list record :=
  dict_get idx (schedule_set_id_of handler) [].
(** * Properties *)

(** ** The result monad *)

Lemma bind_inr {A B} (c : result A) (k : A -> result B) b :
  bind c k = inr b -> exists a, c = inr a /\ k a = inr b.
Proof. destruct c as [e|a]; simpl; [discriminate | eauto]. Qed.

Lemma bind_ret {A B} (a : A) (k : A -> result B) : bind (inr a) k = k a.
Proof. reflexivity. Qed.

Ltac inv_bind H :=
  let a := fresh "a" in
  let Ha := fresh "Ha" in
  apply bind_inr in H as (a & Ha & H).

(** ** The resolver *)

Section resolver.
Context (schedule_map : gmap pyval pyval).
Context (schedule_set_members_map : gmap pyval (list record)).

(** Every path through the loop body that does not raise appends one
    row carrying the handler's name, whatever was accumulated before. *)
Lemma resolve_handler_appends acc handler acc' :
  resolve_handler schedule_map schedule_set_members_map acc handler = inr acc' ->
  exists r, acc' = acc ++ [r]
    /\ CallHandlerName r = dict_get handler "DisplayName" (Some "Unnamed Handler")
    /\ row_from schedule_map schedule_set_members_map handler r.
Proof.
  unfold row_from, resolve_handler. intros H.
  destruct (negb (truthy _)); [injection H as <-; eauto|].
  destruct (is_empty (dict_get _ _ _)); [injection H as <-; eauto|].
  destruct (resolved_schedules _ _) as [e|resolved]; simpl in *; [discriminate|].
  destruct (is_empty resolved); [injection H as <-; eauto|].
  destruct (join _ _) as [e|joined]; simpl in *; [discriminate|].
  injection H as <-; eauto.
Qed.

Lemma for_each_handler_rows call_handlers acc rows :
  for_each_handler schedule_map schedule_set_members_map call_handlers acc = inr rows ->
  exists new, rows = acc ++ new
    /\ Forall2 (row_from schedule_map schedule_set_members_map) call_handlers new.
Proof.
  revert acc. induction call_handlers as [|handler rest IH]; simpl; intros acc H.
  - injection H as <-. exists []. by rewrite app_nil_r.
  - inv_bind H. apply resolve_handler_appends in Ha as (r & -> & _ & Hr).
    apply IH in H as (new & -> & Hnew).
    exists (r :: new). split; [by rewrite <- app_assoc | by constructor].
Qed.

End resolver.

(** *** When the resolver does not raise *)

Lemma schedule_map_of_returns all schedules acc :
  Forall schedule_shape schedules ->
  (forall s, s ∈ schedules -> s ∈ all) ->
  names_of all acc ->
  exists schedule_map,
    schedule_map_of schedules acc = inr schedule_map /\ names_of all schedule_map.
Proof.
  revert acc. induction schedules as [|s rest IH]; intros acc Hshape Hsub Hacc; simpl.
  - eauto.
  - inversion_clear Hshape as [|? ? [[oid Hoid] [n Hn]] Hrest].
    unfold subscript. rewrite Hoid, Hn. simpl.
    apply IH; [done | intros; apply Hsub; by right |].
    intros id v. rewrite lookup_insert. case_decide as Hid.
    + intros [= <-]. exists n. split; [done|]. exists s. split; [apply Hsub; by left | done].
    + apply Hacc.
Qed.

(** The comprehension, on members it can read: the names looked up for
    the members that are not excluded, in member order. *)
Lemma resolved_schedules_spec schedule_map members :
  str_names schedule_map ->
  Forall resolvable members ->
  resolved_schedules schedule_map members
  = inr (Some <$> map (looked_up schedule_map)
                      (List.filter (fun member => negb (excluded member)) members)).
Proof.
  intros Hnames. induction 1 as [|m rest [Hnull Hid] _ IH]; [done|].
  cbn [resolved_schedules List.filter]. unfold excluded in *.
  assert (equals_ignoring_case (m !! "Exclude") "true" = false ->
    (let* schedule_object_id := subscript m "ScheduleObjectId" in
     let* more := resolved_schedules schedule_map rest in
     ret (dict_get schedule_map schedule_object_id (Some "Unknown Schedule") :: more))
    = inr (Some <$> map (looked_up schedule_map)
             (m :: List.filter (fun member =>
                      negb (equals_ignoring_case (member !! "Exclude") "true")) rest)))
    as Hkept.
  { intros Hex. destruct (Hid Hex) as [sid Hsid].
    unfold subscript, looked_up. rewrite Hsid, IH. csimpl. rewrite Hsid.
    unfold dict_get. destruct (schedule_map !! sid) as [v|] eqn:Ev; [|done].
    destruct (Hnames _ _ Ev) as [n ->]. done. }
  unfold dict_get. destruct (m !! "Exclude") as [[ex|]|] eqn:E;
    [| by destruct Hnull | by apply Hkept]; simpl in *.
  destruct (String.eqb (Str.lower ex) "true"); simpl; [done | by apply Hkept].
Qed.

Lemma names_of_str_names all schedule_map :
  names_of all schedule_map -> str_names schedule_map.
Proof. intros Hmap id v (n & -> & _)%Hmap. by eexists. Qed.

Lemma looked_up_part all schedule_map member :
  names_of all schedule_map -> resolved_part all (looked_up schedule_map member).
Proof.
  intros Hmap. unfold looked_up.
  destruct (member !! "ScheduleObjectId") as [id|]; [|by left].
  destruct (schedule_map !! id) as [v|] eqn:Ev; [|by left].
  apply Hmap in Ev as (n & -> & Hn). by right.
Qed.

Lemma resolved_schedules_returns all schedule_map members :
  names_of all schedule_map ->
  Forall resolvable members ->
  exists names,
    resolved_schedules schedule_map members = inr (Some <$> names)
    /\ Forall (resolved_part all) names.
Proof.
  intros Hmap Hmembers. eexists. split.
  - apply resolved_schedules_spec; [by eapply names_of_str_names | done].
  - apply Forall_forall. intros n (member & -> & _)%list_elem_of_fmap.
    by apply looked_up_part.
Qed.

Lemma join_strs sep (names : list string) :
  join sep (Some <$> names) = inr (Str.join sep names).
Proof.
  unfold join.
  assert (all_str (Some <$> names) = inr names) as Hall.
  { induction names as [|n names IH]; csimpl; [done | by rewrite IH]. }
  by rewrite Hall.
Qed.

Lemma resolve_handler_returns all schedule_map idx acc handler :
  names_of all schedule_map -> index_shape idx ->
  exists r, resolve_handler schedule_map idx acc handler = inr (acc ++ [r])
    /\ degraded all r.
Proof.
  intros Hmap Hidx. unfold resolve_handler.
  set (name := dict_get handler "DisplayName" _).
  set (id := dict_get handler "ScheduleSetObjectId" _).
  destruct (negb (truthy id)); [eexists; split; [done | by left]|].
  unfold dict_get.
  destruct (idx !! id) as [members|] eqn:E; simpl; [|eexists; split; [done | by left]].
  destruct (is_empty members); [eexists; split; [done | by left]|].
  destruct (resolved_schedules_returns all schedule_map members Hmap (Hidx _ _ E))
    as (names & -> & Hnames).
  destruct names as [|n names]; [eexists; split; [done | by left]|].
  rewrite bind_ret, join_strs. simpl. eexists; split; [done|].
  right. exists (n :: names). done.
Qed.

Lemma for_each_handler_returns all schedule_map idx call_handlers acc :
  names_of all schedule_map -> index_shape idx ->
  exists new, for_each_handler schedule_map idx call_handlers acc = inr (acc ++ new)
    /\ Forall (degraded all) new.
Proof.
  intros Hmap Hidx. revert acc.
  induction call_handlers as [|handler rest IH]; intros acc; simpl.
  - exists []. by rewrite app_nil_r.
  - destruct (resolve_handler_returns all schedule_map idx acc handler Hmap Hidx)
      as (r & -> & Hr); simpl.
    destruct (IH (acc ++ [r])) as (new & -> & Hnew).
    exists (r :: new). split; [by rewrite <- app_assoc | by constructor].
Qed.

Lemma names_of_empty all : names_of all ∅.
Proof. intros id v. by rewrite lookup_empty. Qed.

Lemma resolve_schedules_rows call_handlers schedules schedule_sets idx rows :
  resolve_schedules call_handlers schedules schedule_sets idx = inr rows ->
  exists schedule_map,
    schedule_map_of schedules ∅ = inr schedule_map
    /\ Forall2 (row_from schedule_map idx) call_handlers rows.
Proof.
  unfold resolve_schedules. intros H. inv_bind H.
  apply for_each_handler_rows in H as (new & -> & Hnew). eauto.
Qed.

Lemma resolve_schedules_returns call_handlers schedules schedule_sets idx :
  Forall schedule_shape schedules -> index_shape idx ->
  exists rows,
    resolve_schedules call_handlers schedules schedule_sets idx = inr rows
    /\ Forall (degraded schedules) rows.
Proof.
  intros Hs Hidx. unfold resolve_schedules.
  destruct (schedule_map_of_returns schedules schedules ∅ Hs)
    as (schedule_map & -> & Hmap); [done | apply names_of_empty |].
  rewrite bind_ret.
  destruct (for_each_handler_returns schedules schedule_map idx call_handlers [] Hmap Hidx)
    as (new & -> & Hnew). eauto.
Qed.

(** *** Shapes of the sample data *)

Lemma sample_schedules_shape : Forall schedule_shape [Sample.business_hours].
Proof.
  repeat constructor.
  - by exists (Some "SC1").
  - by exists "Business Hours".
Qed.

Lemma sample_index_shape : index_shape Sample.index.
Proof.
  unfold Sample.index, Sample.index_of.
  intros id members [_ <-]%lookup_singleton_Some.
  repeat constructor; try (vm_compute; discriminate).
  intros _. by exists (Some "SC1").
Qed.

(** C1, as stated, fails: a schedule record without [ObjectId] makes the
    resolver raise [KeyError] while the lookup is built, and no row at all
    is returned for the one handler given. *)
Lemma resolve_schedules_not_total :
  resolve_schedules [Sample.operator] [Sample.schedule_without_id] [] Sample.index
    = inl (KeyError "ObjectId")
  /\ ~ exists rows,
        resolve_schedules [Sample.operator] [Sample.schedule_without_id] [] Sample.index
          = inr rows
        /\ length rows = length [Sample.operator].
Proof.
  assert (resolve_schedules [Sample.operator] [Sample.schedule_without_id] [] Sample.index
          = inl (KeyError "ObjectId")) as E by (vm_compute; reflexivity).
  split; [exact E|]. intros (rows & H & _). rewrite E in H. discriminate.
Qed.

(** C1 (amended): for every list of handlers, and for every list of
    schedules and member index in which each schedule record has an
    [ObjectId] field and a string [DisplayName], and each member record
    has an [Exclude] that is absent or a string and, unless it is
    excluded, a [ScheduleObjectId] field, the resolver returns exactly one
    row per input handler, in handler input order: the output has the
    length of the handler list and row i is the row produced from
    handler i. *)
Theorem resolve_schedules_one_row_per_handler
    (call_handlers schedules schedule_sets : list record)
    (idx : gmap pyval (list record)) :
  Forall schedule_shape schedules ->
  index_shape idx ->
  exists schedule_map rows,
    schedule_map_of schedules ∅ = inr schedule_map
    /\ resolve_schedules call_handlers schedules schedule_sets idx = inr rows
    /\ length rows = length call_handlers
    /\ forall i handler, call_handlers !! i = Some handler ->
         exists r, rows !! i = Some r
           /\ row_from schedule_map idx handler r
           /\ CallHandlerName r = dict_get handler "DisplayName" (Some "Unnamed Handler").
Proof.
  intros Hs Hidx.
  destruct (resolve_schedules_returns call_handlers schedules schedule_sets idx Hs Hidx)
    as (rows & Hrows & _).
  destruct (resolve_schedules_rows _ _ _ _ _ Hrows) as (schedule_map & Hmap & Hall).
  exists schedule_map, rows. repeat split; [done | done | |].
  - symmetry. by eapply Forall2_length.
  - intros i handler Hi.
    destruct (Forall2_lookup_l _ _ _ _ _ Hall Hi) as (r & Hri & Hr).
    exists r. split; [done | split; [done |]].
    destruct (resolve_handler_appends _ _ [] handler [r] Hr) as (r' & [= <-] & Hname & _).
    done.
Qed.

Lemma resolve_schedules_one_row_per_handler_witness :
  exists schedule_map rows,
    schedule_map_of [Sample.business_hours] ∅ = inr schedule_map
    /\ resolve_schedules [Sample.operator] [Sample.business_hours] [] Sample.index
       = inr rows
    /\ length rows = length [Sample.operator]
    /\ forall i handler, [Sample.operator] !! i = Some handler ->
         exists r, rows !! i = Some r
           /\ row_from schedule_map Sample.index handler r
           /\ CallHandlerName r = dict_get handler "DisplayName" (Some "Unnamed Handler").
Proof.
  apply (resolve_schedules_one_row_per_handler
           [Sample.operator] [Sample.business_hours] [] Sample.index).
  - exact sample_schedules_shape.
  - exact sample_index_shape.
Defined.

(** C2, as stated, fails in each of the three cases it names: a member
    without [ScheduleObjectId] and a schedule without [ObjectId] or
    [DisplayName] raise [KeyError]; an [Exclude] that is present with a
    null value raises [AttributeError]. *)
Lemma resolve_schedules_raises :
  resolve_schedules [Sample.operator] [Sample.business_hours] []
    (Sample.index_of [Sample.member_without_schedule])
    = inl (KeyError "ScheduleObjectId")
  /\ resolve_schedules [Sample.operator] [Sample.business_hours] []
       (Sample.index_of [Sample.member_null_exclude])
     = inl AttributeError
  /\ resolve_schedules [Sample.operator] [Sample.schedule_without_id] [] Sample.index
     = inl (KeyError "ObjectId")
  /\ resolve_schedules [Sample.operator] [Sample.schedule_without_name] [] Sample.index
     = inl (KeyError "DisplayName").
Proof. repeat split; vm_compute; reflexivity. Qed.

(** C2 (amended): for every list of handlers (their fields may be missing
    or null), and for every list of schedules and member index in which
    each schedule record has an [ObjectId] field and a string
    [DisplayName] and each member record has an [Exclude] that is absent
    or a string and, unless it is excluded, a [ScheduleObjectId] field,
    the resolver raises no exception, and every row's [Schedule] is the
    sentinel "No Schedule" or a ", "-join of parts each of which is a
    schedule's display name or the sentinel "Unknown Schedule". *)
Theorem resolve_schedules_degrades
    (call_handlers schedules schedule_sets : list record)
    (idx : gmap pyval (list record)) :
  Forall schedule_shape schedules ->
  index_shape idx ->
  exists rows,
    resolve_schedules call_handlers schedules schedule_sets idx = inr rows
    /\ Forall (degraded schedules) rows.
Proof. apply resolve_schedules_returns. Qed.

Lemma resolve_schedules_degrades_witness :
  exists rows,
    resolve_schedules [Sample.operator; ∅] [Sample.business_hours] [] Sample.index
      = inr rows
    /\ Forall (degraded [Sample.business_hours]) rows.
Proof.
  apply (resolve_schedules_degrades
           [Sample.operator; ∅] [Sample.business_hours] [] Sample.index).
  - exact sample_schedules_shape.
  - exact sample_index_shape.
Defined.

(** *** Handlers without members, handlers without a name *)

Lemma without_members_falsy idx handler :
  without_members idx handler ->
  let id := dict_get handler "ScheduleSetObjectId" None in
  truthy id = false \/ dict_get idx id [] = [].
Proof.
  unfold dict_get.
  intros [-> | [-> | [-> | (id & -> & [-> | ->])]]]; simpl; auto.
Qed.

(** C6: a handler whose [ScheduleSetObjectId] is absent, null or empty,
    or is not a key of the member index, or is a key with an empty member
    list, gets a row whose [Schedule] is exactly "No Schedule": the loop
    body appends that row without raising, and it is the handler's row in
    whatever the resolver returns. *)
Theorem no_members_no_schedule
    (idx : gmap pyval (list record)) (handler : record) :
  without_members idx handler ->
  (forall schedule_map acc,
     resolve_handler schedule_map idx acc handler
     = inr (acc ++ [{| CallHandlerName :=
                         dict_get handler "DisplayName" (Some "Unnamed Handler");
                       Schedule := "No Schedule" |}]))
  /\ (forall call_handlers schedules schedule_sets rows i,
        resolve_schedules call_handlers schedules schedule_sets idx = inr rows ->
        call_handlers !! i = Some handler ->
        exists r, rows !! i = Some r /\ Schedule r = "No Schedule").
Proof.
  intros Hw. apply without_members_falsy in Hw. simpl in Hw.
  assert (forall schedule_map acc,
     resolve_handler schedule_map idx acc handler
     = inr (acc ++ [{| CallHandlerName :=
                         dict_get handler "DisplayName" (Some "Unnamed Handler");
                       Schedule := "No Schedule" |}])) as Hrow.
  { intros schedule_map acc. unfold resolve_handler.
    destruct Hw as [-> | ->]; simpl; [done|].
    by destruct (negb _). }
  split; [exact Hrow|].
  intros call_handlers schedules schedule_sets rows i Hrows Hi.
  apply resolve_schedules_rows in Hrows as (schedule_map & _ & Hall).
  destruct (Forall2_lookup_l _ _ _ _ _ Hall Hi) as (r & Hri & Hr).
  exists r. split; [done|].
  unfold row_from in Hr. rewrite Hrow in Hr. by injection Hr as <-.
Qed.

Lemma no_members_no_schedule_witness :
  (forall schedule_map acc,
     resolve_handler schedule_map Sample.index acc Sample.unlinked
     = inr (acc ++ [{| CallHandlerName :=
                         dict_get Sample.unlinked "DisplayName" (Some "Unnamed Handler");
                       Schedule := "No Schedule" |}]))
  /\ (forall call_handlers schedules schedule_sets rows i,
        resolve_schedules call_handlers schedules schedule_sets Sample.index = inr rows ->
        call_handlers !! i = Some Sample.unlinked ->
        exists r, rows !! i = Some r /\ Schedule r = "No Schedule").
Proof.
  apply (no_members_no_schedule Sample.index Sample.unlinked).
  right. right. right. exists (Some "SS2").
  split; [vm_compute; reflexivity | left; vm_compute; reflexivity].
Defined.




(** *** The resolved schedule string *)

(** C5, as stated, fails: a member decoded from an empty [<Exclude/>]
    element has a null [Exclude], which does not equal "true", so by the
    claim it survives and the row reads "Business Hours"; the code calls
    [lower] on the null and raises. *)
Lemma null_exclude_not_resolved :
  spec_schedule {[ Some "SC1" := Some "Business Hours" ]} [Sample.member_null_exclude]
    = "Business Hours"
  /\ resolve_handler {[ Some "SC1" := Some "Business Hours" ]}
       (Sample.index_of [Sample.member_null_exclude]) [] Sample.operator
     = inl AttributeError.
Proof. split; vm_compute; reflexivity. Qed.

(** C5 (amended): for every handler with a non-empty [ScheduleSetObjectId]
    whose member list in the index is non-empty, where each member's
    [Exclude] is absent or a string, each member that is not excluded has
    a [ScheduleObjectId] field, and every name in the schedule lookup is a
    string, the loop body appends the handler's row with the [Schedule]
    computed by: dropping every member whose [Exclude] equals "true"
    case-insensitively, mapping each surviving member's [ScheduleObjectId]
    through the lookup with "Unknown Schedule" when it is not found, and
    joining with ", " in member order; "No Schedule" if all members were
    excluded. *)
Theorem resolve_handler_schedule
    (schedule_map : gmap pyval pyval) (idx : gmap pyval (list record))
    (acc : list row) (handler : record) (members : list record) :
  truthy (dict_get handler "ScheduleSetObjectId" None) = true ->
  idx !! dict_get handler "ScheduleSetObjectId" None = Some members ->
  members <> [] ->
  Forall resolvable members ->
  str_names schedule_map ->
  resolve_handler schedule_map idx acc handler
  = inr (acc ++ [{| CallHandlerName :=
                      dict_get handler "DisplayName" (Some "Unnamed Handler");
                    Schedule := spec_schedule schedule_map members |}]).
Proof.
  intros Hid Hidx Hne Hmembers Hnames. unfold resolve_handler.
  set (id := dict_get handler "ScheduleSetObjectId" None) in *.
  assert (dict_get idx id [] = members) as ->.
  { unfold dict_get. by rewrite Hidx. }
  rewrite Hid. cbn [negb].
  assert (is_empty members = false) as -> by (by destruct members).
  rewrite resolved_schedules_spec by done. rewrite bind_ret.
  unfold spec_schedule.
  destruct (List.filter _ members) as [|s survivors]; [reflexivity|].
  rewrite join_strs. reflexivity.
Qed.

Lemma sample_str_names : str_names {[ Some "SC1" := Some "Business Hours" ]}.
Proof. intros id v [_ <-]%lookup_singleton_Some. by eexists. Qed.

Lemma resolve_handler_schedule_witness :
  resolve_handler {[ Some "SC1" := Some "Business Hours" ]} Sample.index []
    Sample.operator
  = inr ([] ++ [{| CallHandlerName :=
                     dict_get Sample.operator "DisplayName" (Some "Unnamed Handler");
                   Schedule := spec_schedule {[ Some "SC1" := Some "Business Hours" ]}
                                 [Sample.member_sc1; Sample.member_sc2_excluded] |}]).
Proof.
  apply (resolve_handler_schedule {[ Some "SC1" := Some "Business Hours" ]}
           Sample.index [] Sample.operator
           [Sample.member_sc1; Sample.member_sc2_excluded]).
  - vm_compute. reflexivity.
  - vm_compute. reflexivity.
  - discriminate.
  - repeat constructor; try (vm_compute; discriminate).
    intros _. by exists (Some "SC1").
  - exact sample_str_names.
Defined.

(** ** The classifier *)

(** *** The filter *)

Lemma system_handlers_selected all_handlers selected :
  system_handlers all_handlers = inr selected ->
  selected `sublist_of` all_handlers
  /\ Forall (fun handler => is_system_handler handler = inr true) selected.
Proof.
  revert selected. induction all_handlers as [|handler rest IH]; simpl; intros selected H.
  - injection H as <-. split; constructor.
  - inv_bind H. inv_bind H. injection H as <-.
    destruct (IH _ Ha0) as [Hsub Hall].
    destruct a; split; try done.
    + by constructor.
    + by constructor.
    + by constructor.
Qed.

Lemma system_handlers_keeps_selected selected :
  Forall (fun handler => is_system_handler handler = inr true) selected ->
  system_handlers selected = inr selected.
Proof. induction 1 as [|handler rest Hh _ IH]; simpl; [done | by rewrite Hh, IH]. Qed.

(** *** The deduplication *)

Lemma key_in_keys key (unique : list (string * record)) :
  key_in key unique = name_in key unique.*1.
Proof.
  unfold key_in, name_in.
  induction unique as [|entry unique IH]; csimpl; [done | by rewrite IH].
Qed.

Lemma name_in_elem key (keys : list string) : name_in key keys = true <-> key ∈ keys.
Proof.
  unfold name_in. rewrite existsb_exists. split.
  - intros (k & Hk%list_elem_of_In & ->%String.eqb_eq). done.
  - intros Hk. exists key. rewrite <- list_elem_of_In. by rewrite String.eqb_refl.
Qed.

Lemma name_in_not_elem key (keys : list string) : name_in key keys = false <-> key ∉ keys.
Proof.
  rewrite <- name_in_elem. destruct (name_in key keys); split; congruence.
Qed.

(** What the loop leaves in [unique_handlers]: the entries it started
    with, then new ones, each a handler of the input under its own key,
    in input order and under distinct keys. *)
Lemma deduplicate_unique handlers unique warnings unique' warnings' :
  deduplicate handlers unique warnings = inr (unique', warnings') ->
  exists new,
    unique' = unique ++ new
    /\ new.*2 `sublist_of` handlers
    /\ Forall (fun entry => composite_key entry.2 = inr entry.1) new
    /\ (NoDup unique.*1 -> NoDup unique'.*1).
Proof.
  revert unique warnings.
  induction handlers as [|handler rest IH]; simpl; intros unique warnings H.
  - injection H as <- <-. exists []. rewrite app_nil_r. repeat split; [constructor..|done].
  - inv_bind H. rename a into key.
    destruct (negb (key_in key unique)) eqn:Hin.
    + apply IH in H as (new & -> & Hsub & Hkeys & Hnodup).
      exists ((key, handler) :: new). rewrite <- app_assoc. repeat split.
      * by constructor.
      * by constructor.
      * intros Hu. rewrite <- app_assoc in Hnodup. apply Hnodup.
        rewrite fmap_app. apply NoDup_app.
        repeat split; [done | | apply NoDup_singleton].
        intros k Hk [->|[]%elem_of_nil]%elem_of_cons.
        apply negb_true_iff in Hin. rewrite key_in_keys in Hin.
        by apply name_in_not_elem in Hin.
    + apply IH in H as (new & -> & Hsub & Hkeys & Hnodup).
      exists new. repeat split; [by constructor | done | done].
Qed.

(** Entries under distinct keys, each handler under its own key, all go
    through the loop untouched, and nothing is warned about. *)
Lemma deduplicate_distinct (new unique : list (string * record)) warnings :
  Forall (fun entry => composite_key entry.2 = inr entry.1) new ->
  NoDup (unique ++ new).*1 ->
  deduplicate new.*2 unique warnings = inr (unique ++ new, warnings).
Proof.
  revert unique. induction new as [|[key handler] new IH]; intros unique Hkeys Hnodup.
  - by rewrite app_nil_r.
  - inversion_clear Hkeys as [|? ? Hkey Hrest]. csimpl in *. rewrite Hkey. simpl.
    assert (key_in key unique = false) as ->.
    { rewrite key_in_keys. apply name_in_not_elem.
      rewrite fmap_app in Hnodup. apply NoDup_app in Hnodup as (_ & Hdisj & _).
      intros Hk. apply (Hdisj _ Hk). by left. }
    simpl. rewrite (IH (unique ++ [(key, handler)])), <- app_assoc; [done..|].
    by rewrite <- app_assoc.
Qed.

(** C9: whatever [classify] returns is a subsequence of its input (the
    kept handlers, in input order), and classifying that output again
    returns it unchanged, with no duplicate to warn about. *)
Theorem classify_idempotent (all_handlers kept : list record) (warnings : list string) :
  classify all_handlers = inr (kept, warnings) ->
  kept `sublist_of` all_handlers
  /\ classify kept = inr (kept, []).
Proof.
  unfold classify. intros H. inv_bind H. rename a into selected.
  inv_bind H. destruct a as [unique ws]. injection H as <- <-. simpl.
  apply system_handlers_selected in Ha as [Hsub Hsel].
  apply deduplicate_unique in Ha0 as (new & -> & Hnew & Hkeys & Hnodup).
  simpl in *. specialize (Hnodup (NoDup_nil_2)).
  split; [by etrans|].
  rewrite system_handlers_keeps_selected.
  - rewrite bind_ret, (deduplicate_distinct new [] []); done.
  - apply Forall_forall. intros handler Hh.
    eapply Forall_forall in Hsel; [done|]. by eapply elem_of_sublist.
Qed.

Lemma classify_idempotent_witness :
  [Sample.operator; Sample.sales]
    `sublist_of` [Sample.operator; Sample.mailbox; Sample.sales; Sample.operator_shouting]
  /\ classify [Sample.operator; Sample.sales]
     = inr ([Sample.operator; Sample.sales], []).
Proof.
  apply (classify_idempotent
           [Sample.operator; Sample.mailbox; Sample.sales; Sample.operator_shouting]
           [Sample.operator; Sample.sales]
           [duplicate_warning Sample.operator_shouting "operator|"]).
  vm_compute. reflexivity.
Defined.

(** *** The selection predicate *)

Lemma is_system_handler_spec handler :
  flags_shape handler -> is_system_handler handler = inr (spec_selected handler).
Proof.
  intros [Hu Hn]. unfold is_system_handler, spec_selected, dict_get, not_null in *.
  destruct (handler !! "Undeletable") as [[u|]|]; [| done |]; simpl.
  all: try destruct (String.eqb (Str.lower u) "true"); simpl; try done.
  all: destruct (handler !! "DtmfAccessId") as [[d|]|]; simpl;
       try (destruct (String.eqb d ""); simpl); try done.
  all: by destruct (handler !! "DisplayName") as [[n|]|].
Qed.





(** *** The composite key *)







(** ** The main block *)

Lemma join_and_report_guard unity call_handlers schedules :
  (join_and_report unity call_handlers schedules = inr CouldNotRetrieve
   <-> call_handlers = [] \/ schedules = [])
  /\ (call_handlers <> [] -> schedules <> [] ->
      join_and_report unity call_handlers schedules
      = let* concatenated_list :=
          resolve_schedules call_handlers schedules []
            (get_all_schedule_set_members unity call_handlers) in
        ret (Reported concatenated_list (csv_file concatenated_list))).
Proof.
  unfold join_and_report.
  destruct call_handlers as [|h hs], schedules as [|s ss]; simpl.
  1-3: split; [split; auto | intros; done].
  split; [|done]. split; [|intros [?|?]; done].
  by destruct (resolve_schedules _ _ _ _).
Qed.

(** C4, as stated, fails: with the call handlers fetched and the
    schedules endpoint answering 503, only one of the two lists is empty,
    and the run still skips the join and the report. *)
Lemma one_empty_fetch_skips_the_join :
  get_call_handlers SampleXml.unity_schedules_down <> inr ([], [])
  /\ get_schedules SampleXml.unity_schedules_down = []
  /\ main SampleXml.unity_schedules_down = inr CouldNotRetrieve.
Proof. repeat split; [|vm_compute; reflexivity..]. vm_compute. discriminate. Qed.

(** C4 (amended): the run proceeds to the join and report stages only
    when both the handler list and the schedule list are non-empty; it
    skips them (aborting the report) when either one is empty, so an
    empty result from either of the two fetches prevents the join from
    running. *)
Theorem main_guard (unity : api) (call_handlers : list record) (warnings : list string) :
  get_call_handlers unity = inr (call_handlers, warnings) ->
  (main unity = inr CouldNotRetrieve
   <-> call_handlers = [] \/ get_schedules unity = [])
  /\ (call_handlers <> [] -> get_schedules unity <> [] ->
      main unity
      = let* concatenated_list :=
          resolve_schedules call_handlers (get_schedules unity) []
            (get_all_schedule_set_members unity call_handlers) in
        ret (Reported concatenated_list (csv_file concatenated_list))).
Proof.
  intros Hfetch. unfold main. rewrite Hfetch, bind_ret. simpl.
  apply join_and_report_guard.
Qed.

Lemma main_guard_witness :
  (main SampleXml.unity = inr CouldNotRetrieve
   <-> [Sample.operator] = [] \/ get_schedules SampleXml.unity = [])
  /\ ([Sample.operator] <> [] -> get_schedules SampleXml.unity <> [] ->
      main SampleXml.unity
      = let* concatenated_list :=
          resolve_schedules [Sample.operator] (get_schedules SampleXml.unity) []
            (get_all_schedule_set_members SampleXml.unity [Sample.operator]) in
        ret (Reported concatenated_list (csv_file concatenated_list))).
Proof.
  apply (main_guard SampleXml.unity [Sample.operator] []).
  vm_compute. reflexivity.
Defined.

(** ** The decoder *)

Lemma element_nested_ind (P : element -> Prop) :
  (forall tag text children, Forall P children -> P (Element tag text children)) ->
  forall elem, P elem.
Proof.
  intros step. fix IH 1. intros [tag text children]. apply step.
  induction children as [|c cs IHcs]; constructor; [apply IH | exact IHcs].
Qed.

(** The three nested loops over the children, as list functions. *)
Lemma iterparse_end_children element_name tag text children :
  iterparse_end element_name (Element tag text children)
  = let below :=
      foldr (fun c later =>
               ((iterparse_end element_name c).1 ++ later.1,
                (iterparse_end element_name c).2 :: later.2))
            ([], []) children in
    if Str.endswith tag element_name
    then (below.1 ++ [child_record below.2], clear (Element tag text children))
    else (below.1, Element tag text below.2).
Proof.
  simpl. set (each := fix each (cs : list element) := _).
  assert (forall cs, each cs
            = foldr (fun c later =>
                       ((iterparse_end element_name c).1 ++ later.1,
                        (iterparse_end element_name c).2 :: later.2)) ([], []) cs)
    as Heach.
  { induction cs as [|c cs IH]; simpl; [done | by rewrite IH]. }
  by rewrite Heach.
Qed.

Lemma end_order_children tag text children :
  end_order (Element tag text children)
  = flat_map end_order children ++ [Element tag text children].
Proof.
  reflexivity.
Qed.

Lemma left_behind_children element_name tag text children :
  left_behind element_name (Element tag text children)
  = if Str.endswith tag element_name then clear (Element tag text children)
    else Element tag text (map (left_behind element_name) children).
Proof.
  reflexivity.
Qed.

Lemma left_behind_tag element_name elem :
  tag_of (left_behind element_name elem) = tag_of elem.
Proof.
  destruct elem as [tag text children]. rewrite left_behind_children.
  by destruct (Str.endswith tag element_name).
Qed.

Lemma left_behind_text element_name elem :
  text_of (left_behind element_name elem) = text_seen element_name elem.
Proof.
  destruct elem as [tag text children]. rewrite left_behind_children.
  unfold text_seen, tag_ends_with. simpl.
  by destruct (Str.endswith tag element_name).
Qed.

Lemma child_record_left_behind element_name tag text children :
  child_record (map (left_behind element_name) children)
  = record_for element_name (Element tag text children).
Proof.
  unfold child_record, record_for. simpl. generalize (∅ : record).
  induction children as [|c cs IH]; intros r; simpl; [done|].
  by rewrite left_behind_tag, left_behind_text, IH.
Qed.

Lemma iterparse_end_spec element_name elem :
  iterparse_end element_name elem
  = (map (record_for element_name)
         (List.filter (tag_ends_with element_name) (end_order elem)),
     left_behind element_name elem).
Proof.
  induction elem as [tag text children IH] using element_nested_ind.
  rewrite iterparse_end_children, end_order_children, left_behind_children.
  assert (foldr (fun c later =>
                   ((iterparse_end element_name c).1 ++ later.1,
                    (iterparse_end element_name c).2 :: later.2)) ([], []) children
          = (map (record_for element_name)
                 (List.filter (tag_ends_with element_name) (flat_map end_order children)),
             map (left_behind element_name) children)) as ->.
  { induction IH as [|c cs Hc _ IHcs]; [done|].
    cbn [foldr flat_map]. rewrite IHcs, Hc.
    cbn [fst snd map]. by rewrite List.filter_app, map_app. }
  cbn zeta. rewrite List.filter_app, map_app. cbn [List.filter fst snd].
  change (tag_ends_with element_name (Element tag text children))
    with (Str.endswith tag element_name).
  destruct (Str.endswith tag element_name); cbn [map].
  - by rewrite (child_record_left_behind element_name tag text).
  - by rewrite app_nil_r.
Qed.

(** *** Suffixes and local names *)

Lemma endswith_refl s : Str.endswith s s = true.
Proof. destruct s; simpl; [done|]. by rewrite Ascii.eqb_refl, String.eqb_refl. Qed.

Lemma endswith_cons c s suffix :
  Str.endswith s suffix = true -> Str.endswith (String c s) suffix = true.
Proof. intros H. cbn [Str.endswith]. rewrite H. by destruct (String.eqb _ _). Qed.

Lemma endswith_after_last_brace s : Str.endswith s (Str.after_last_brace s) = true.
Proof.
  induction s as [|c s IH]; [done|]. cbn [Str.after_last_brace].
  destruct (existsb _ _); [by apply endswith_cons|].
  destruct (Ascii.eqb c "}"); [|apply endswith_refl].
  apply endswith_cons, endswith_refl.
Qed.

Lemma local_name_ends_tag element_name elem :
  local_name_is element_name elem = true -> tag_ends_with element_name elem = true.
Proof.
  unfold local_name_is, tag_ends_with. intros <-%String.eqb_eq.
  apply endswith_after_last_brace.
Qed.

(** *** What a record holds *)

Lemma record_for_lookup element_name elem k :
  record_for element_name elem !! k
  = text_seen element_name <$> last_named k (children_of elem).
Proof.
  unfold record_for, last_named.
  assert (forall (r : record) cs,
    foldl (fun r child =>
             <[Str.after_last_brace (tag_of child) := text_seen element_name child]> r)
          r cs !! k
    = match last (List.filter
                    (fun child => String.eqb (Str.after_last_brace (tag_of child)) k) cs) with
      | Some c => Some (text_seen element_name c)
      | None => r !! k
      end) as Hfold.
  { intros r cs. revert r. induction cs as [|c cs IH]; intros r; simpl; [done|].
    rewrite IH. destruct (String.eqb_spec (Str.after_last_brace (tag_of c)) k) as [<-|Hne].
    - rewrite last_cons. destruct (last _); [done|]. by rewrite lookup_insert_eq.
    - destruct (last _); [done|]. by rewrite lookup_insert_ne. }
  rewrite Hfold. destruct (last _); [done|]. by rewrite lookup_empty.
Qed.

(** C3, as stated, fails: asked for "Schedule", the decoder emits a
    record for a [HolidaySchedule] element, whose tag after stripping is
    not "Schedule" but ends with it; and an emitted child is cleared
    before its parent is read, so the outer [Foo] of the nested document
    holds null for its child, not the child's text "abc". *)
Lemma suffix_match_decodes_other_elements :
  List.filter (local_name_is "Schedule") (end_order SampleXml.holidays) = []
  /\ parse_large_xml SampleXml.holidays "Schedule"
     = [ {[ "DisplayName" := Some "New Year" ]} ]
  /\ parse_large_xml SampleXml.nested "Foo" = [ ∅; {[ "Foo" := None ]} ].
Proof. repeat split; vm_compute; reflexivity. Qed.

(** C3 (amended): for every document and element name, the decoder emits
    one record for each element whose tag ends with the requested element
    name, in the order in which the elements end; every element whose
    tag, after stripping any namespace prefix, equals the name is among
    them; and each emitted record maps the namespace-stripped local tag of
    each immediate child to the text of the last child with that local
    tag, which is null when that child has no text or was itself emitted,
    and so cleared, before. *)
Theorem parse_large_xml_spec (xml_data : element) (element_name : string) :
  parse_large_xml xml_data element_name
  = map (record_for element_name)
        (List.filter (tag_ends_with element_name) (end_order xml_data))
  /\ (forall elem,
        local_name_is element_name elem = true ->
        tag_ends_with element_name elem = true)
  /\ (forall elem k,
        record_for element_name elem !! k
        = text_seen element_name <$> last_named k (children_of elem)).
Proof.
  split; [|split].
  - unfold parse_large_xml. by rewrite iterparse_end_spec.
  - apply local_name_ends_tag.
  - apply record_for_lookup.
Qed.

(** ** The scenarios of the specification *)

Example decode_three_foos :
  parse_large_xml SampleXml.three_foos "Foo"
  = [ {[ "Id" := Some "1" ]}; {[ "Id" := Some "2" ]};
      <[ "iD" := Some "3" ]> {[ "Note" := None ]} ].
Proof. vm_compute. reflexivity. Qed.

Example operator_business_hours :
  resolve_schedules [Sample.operator] [Sample.business_hours] [] Sample.index
  = inr [{| CallHandlerName := Some "Operator"; Schedule := "Business Hours" |}].
Proof. vm_compute. reflexivity. Qed.

Example operator_unknown_schedule :
  resolve_schedules [Sample.operator] [] [] Sample.index
  = inr [{| CallHandlerName := Some "Operator"; Schedule := "Unknown Schedule" |}].
Proof. vm_compute. reflexivity. Qed.

Example unlinked_no_schedule :
  resolve_schedules [Sample.unlinked] [Sample.business_hours] [] Sample.index
  = inr [{| CallHandlerName := Some "CallHandlerName"; Schedule := "No Schedule" |}].
Proof. vm_compute. reflexivity. Qed.

Example unnamed_business_hours :
  resolve_schedules [Sample.unnamed] [Sample.business_hours] [] Sample.index
  = inr [{| CallHandlerName := Some "Unnamed Handler"; Schedule := "Business Hours" |}].
Proof. vm_compute. reflexivity. Qed.

Example classify_sample :
  classify [Sample.operator; Sample.mailbox; Sample.sales; Sample.operator_shouting]
  = inr ([Sample.operator; Sample.sales],
         ["Duplicate handler detected:   OPERATOR  with key operator|. Keeping the first instance."]).
Proof. vm_compute. reflexivity. Qed.

Example main_sample :
  main SampleXml.unity
  = inr (Reported
           [{| CallHandlerName := Some "Operator"; Schedule := "Business Hours" |}]
           ["CallHandlerName,Schedule" +:+ newline;
            "Operator,Business Hours" +:+ newline]).
Proof. vm_compute. reflexivity. Qed.

(** * Properties of the rest of the script *)

Set Warnings "-clear-no-such-hyp".

(** ** The schedule lookup *)

Lemma last_with_id_cons id schedule schedules :
  last_with_id id (schedule :: schedules)
  = match last_with_id id schedules with
    | Some later => Some later
    | None => if bool_decide (schedule !! "ObjectId" = Some id)
              then Some schedule else None
    end.
Proof.
  unfold last_with_id. cbn [List.filter].
  destruct (bool_decide _); [|by destruct (last _)].
  rewrite last_cons. by destruct (last _).
Qed.

Lemma schedule_map_of_lookup schedules acc schedule_map id :
  schedule_map_of schedules acc = inr schedule_map ->
  schedule_map !! id
  = match last_with_id id schedules with
    | Some schedule => schedule !! "DisplayName"
    | None => acc !! id
    end.
Proof.
  revert acc. induction schedules as [|s rest IH]; intros acc H.
  - by injection H as <-.
  - cbn [schedule_map_of] in H. unfold subscript in H.
    destruct (s !! "ObjectId") as [oid|] eqn:Eo; [|discriminate].
    destruct (s !! "DisplayName") as [dn|] eqn:Ed; [|discriminate].
    simpl in H. rewrite (IH _ H), last_with_id_cons.
    destruct (last_with_id id rest); [done|].
    case_bool_decide as Hid.
    + rewrite Eo in Hid. injection Hid as ->. by rewrite lookup_insert_eq.
    + rewrite lookup_insert_ne; [done | congruence].
Qed.

(** X1: in the lookup built from the schedules, an id maps to the
    [DisplayName] of the last schedule of the list carrying that
    [ObjectId], and an id that no schedule carries is not a key. *)
Theorem schedule_map_last_wins (schedules : list record)
    (schedule_map : gmap pyval pyval) (id : pyval) :
  schedule_map_of schedules ∅ = inr schedule_map ->
  schedule_map !! id
  = match last_with_id id schedules with
    | Some schedule => schedule !! "DisplayName"
    | None => None
    end.
Proof.
  intros H. rewrite (schedule_map_of_lookup _ _ _ id H).
  destruct (last_with_id id schedules); [done | apply lookup_empty].
Qed.

Lemma schedule_map_last_wins_witness :
  ({[ Some "SC1" := Some "Business Hours" ]} : gmap pyval pyval) !! Some "SC1"
  = match last_with_id (Some "SC1")
            [Sample.fields [("ObjectId", Some "SC1"); ("DisplayName", Some "Old")];
             Sample.business_hours] with
    | Some schedule => schedule !! "DisplayName"
    | None => None
    end.
Proof.
  apply (schedule_map_last_wins
           [Sample.fields [("ObjectId", Some "SC1"); ("DisplayName", Some "Old")];
            Sample.business_hours]
           {[ Some "SC1" := Some "Business Hours" ]} (Some "SC1")).
  vm_compute. reflexivity.
Defined.

Lemma schedule_map_of_cases schedules acc :
  (Forall keyed schedules /\ returns (schedule_map_of schedules acc))
  \/ (~ Forall keyed schedules
      /\ exists k, schedule_map_of schedules acc = inl (KeyError k)
           /\ (k = "ObjectId" \/ k = "DisplayName")).
Proof.
  revert acc. induction schedules as [|s rest IH]; intros acc.
  - left. split; [constructor | by eexists].
  - cbn [schedule_map_of]. unfold subscript.
    destruct (s !! "ObjectId") as [oid|] eqn:Eo.
    2: { right. split; [|by eauto].
         intros [[[? Ho] _] _]%Forall_cons. congruence. }
    destruct (s !! "DisplayName") as [dn|] eqn:Ed.
    2: { right. split; [|by eauto].
         intros [[_ [? Hd]] _]%Forall_cons. congruence. }
    simpl. destruct (IH (<[oid := dn]> acc)) as [[Hall Hret] | [Hnot Herr]].
    + left. split; [|done]. constructor; [|done].
      split; by eexists.
    + right. split; [|done]. by intros [_ ?]%Forall_cons.
Qed.

(** X2: building the lookup returns exactly when every schedule record
    has both an [ObjectId] and a [DisplayName] field; otherwise the
    resolver raises [KeyError] for one of these two keys, whatever the
    handlers and the member index are, even with no handler at all. *)
Theorem schedule_lookup_needs_both_fields (schedules : list record) :
  (returns (schedule_map_of schedules ∅) <-> Forall keyed schedules)
  /\ (~ Forall keyed schedules ->
      forall call_handlers schedule_sets idx,
      exists k, resolve_schedules call_handlers schedules schedule_sets idx
                = inl (KeyError k)
                /\ (k = "ObjectId" \/ k = "DisplayName")).
Proof.
  destruct (schedule_map_of_cases schedules ∅) as [[Hall Hret] | [Hnot (k & Hk & Hkey)]].
  - split; [done|]. by intros [].
  - split.
    + split; [|done]. intros [sm Hsm]. rewrite Hk in Hsm. discriminate.
    + intros _ call_handlers schedule_sets idx. exists k.
      unfold resolve_schedules. by rewrite Hk.
Qed.

(** ** The comprehension over the members *)

(** X3: a member whose [Exclude] is "true" in any letter case is skipped
    as if it were not in the list: it adds no schedule and cannot make
    the comprehension raise, even when it has no [ScheduleObjectId]. *)
Theorem excluded_member_skipped (schedule_map : gmap pyval pyval)
    (before after : list record) (member : record) :
  excluded member = true ->
  resolved_schedules schedule_map (before ++ member :: after)
  = resolved_schedules schedule_map (before ++ after).
Proof.
  intros Hex. induction before as [|m rest IH].
  - cbn [app resolved_schedules]. unfold excluded, equals_ignoring_case in Hex.
    unfold dict_get. destruct (member !! "Exclude") as [[ex|]|]; try discriminate.
    simpl. by rewrite Hex.
  - cbn [app resolved_schedules]. by rewrite IH.
Qed.

Lemma excluded_member_skipped_witness :
  resolved_schedules {[ Some "SC1" := Some "Business Hours" ]}
    ([Sample.member_sc1] ++ Sample.fields [("Exclude", Some "TRUE")] :: [])
  = resolved_schedules {[ Some "SC1" := Some "Business Hours" ]}
      ([Sample.member_sc1] ++ []).
Proof.
  apply (excluded_member_skipped {[ Some "SC1" := Some "Business Hours" ]}
           [Sample.member_sc1] [] (Sample.fields [("Exclude", Some "TRUE")])).
  vm_compute. reflexivity.
Defined.

(** ** The loop over the handlers *)

Lemma resolve_handler_acc schedule_map idx acc handler :
  resolve_handler schedule_map idx acc handler
  = let* row := resolve_handler schedule_map idx [] handler in ret (acc ++ row).
Proof.
  unfold resolve_handler.
  destruct (negb (truthy _)); [done|].
  destruct (is_empty (dict_get idx _ _)); [done|].
  destruct (resolved_schedules _ _) as [e|resolved]; [done|]. rewrite !bind_ret.
  destruct (is_empty resolved); [done|].
  by destruct (join _ _).
Qed.

Lemma for_each_handler_acc schedule_map idx call_handlers acc :
  for_each_handler schedule_map idx call_handlers acc
  = let* rows := for_each_handler schedule_map idx call_handlers [] in
    ret (acc ++ rows).
Proof.
  revert acc. induction call_handlers as [|handler rest IH]; intros acc.
  - simpl. by rewrite app_nil_r.
  - cbn [for_each_handler].
    rewrite (resolve_handler_acc _ _ acc).
    destruct (resolve_handler schedule_map idx [] handler) as [e|row]; simpl; [done|].
    rewrite (IH (acc ++ row)), (IH row).
    destruct (for_each_handler schedule_map idx rest []) as [e|rows]; simpl; [done|].
    by rewrite app_assoc.
Qed.

Lemma for_each_handler_app schedule_map idx first second acc :
  for_each_handler schedule_map idx (first ++ second) acc
  = let* rows := for_each_handler schedule_map idx first acc in
    for_each_handler schedule_map idx second rows.
Proof.
  revert acc. induction first as [|handler rest IH]; intros acc; [done|].
  cbn [app for_each_handler].
  destruct (resolve_handler schedule_map idx acc handler) as [e|acc']; [done|].
  rewrite !bind_ret. apply IH.
Qed.

(** X4: resolving a concatenation of two handler lists gives the rows of
    the first followed by the rows of the second, and raises what the
    first of the two to raise would raise: a handler's row depends on no
    other handler. *)
Theorem resolve_schedules_app
    (first second schedules schedule_sets : list record)
    (idx : gmap pyval (list record)) :
  resolve_schedules (first ++ second) schedules schedule_sets idx
  = let* rows1 := resolve_schedules first schedules schedule_sets idx in
    let* rows2 := resolve_schedules second schedules schedule_sets idx in
    ret (rows1 ++ rows2).
Proof.
  unfold resolve_schedules.
  destruct (schedule_map_of schedules ∅) as [e|schedule_map]; [done|].
  rewrite !bind_ret, for_each_handler_app.
  destruct (for_each_handler schedule_map idx first []) as [e|rows1]; [done|].
  rewrite !bind_ret. apply for_each_handler_acc.
Qed.

(** ** The member index of a run *)

Lemma fold_members_lookup (fetch : pyval -> list record) (ids : list pyval) (id : pyval) :
  foldr (fun schedule_set_id schedule_set_members_map =>
           if truthy schedule_set_id
           then <[schedule_set_id := fetch schedule_set_id]> schedule_set_members_map
           else schedule_set_members_map) (∅ : gmap pyval (list record)) ids !! id
  = if bool_decide (truthy id = true /\ id ∈ ids) then Some (fetch id) else None.
Proof.
  induction ids as [|x ids IH]; simpl.
  - rewrite lookup_empty. case_bool_decide as H; [|done].
    destruct H as [_ []%elem_of_nil].
  - destruct (truthy x) eqn:Ex.
    + destruct (decide (x = id)) as [->|Hne].
      * rewrite lookup_insert_eq, bool_decide_eq_true_2; [done|].
        split; [done | by left].
      * rewrite lookup_insert_ne, IH by done.
        apply (f_equal (fun b : bool => if b then _ else _)).
        apply bool_decide_ext. rewrite elem_of_cons.
        split; [intros [? ?]; split; [done | by right] |].
        intros [? [->|?]]; [done | by split].
    + rewrite IH. apply (f_equal (fun b : bool => if b then _ else _)).
      apply bool_decide_ext. rewrite elem_of_cons.
      split; [intros [? ?]; split; [done | by right] |].
      intros [Ht [->|?]]; [congruence | done].
Qed.

Lemma elem_of_unique_schedule_set_ids call_handlers id :
  id ∈ unique_schedule_set_ids call_handlers
  <-> truthy id = true /\ id ∈ map schedule_set_id_of call_handlers.
Proof.
  unfold unique_schedule_set_ids.
  rewrite elem_of_list_to_set, list_elem_of_filter. done.
Qed.

Lemma members_map_lookup unity call_handlers id :
  get_all_schedule_set_members unity call_handlers !! id
  = if bool_decide (truthy id = true /\ id ∈ map schedule_set_id_of call_handlers)
    then Some (get_schedule_set_members unity (format id))
    else None.
Proof.
  unfold get_all_schedule_set_members, set_fold. simpl.
  rewrite (fold_members_lookup
             (fun i => get_schedule_set_members unity (format i))).
  apply (f_equal (fun b : bool => if b then _ else _)).
  apply bool_decide_ext.
  rewrite elem_of_elements, elem_of_unique_schedule_set_ids.
  split; [intros [_ ?] | intros [? ?]; split]; done.
Qed.

(** X5: the member index of a run has a key for exactly the non-empty
    [ScheduleSetObjectId] values of the handlers: each such id holds what
    the member request for that id returned, once, however many handlers
    share it and in whatever order the set of ids is walked; every key
    of the index is such an id, so no request is made for a handler
    without one. *)
Theorem schedule_set_members_map_lookup (unity : api) (call_handlers : list record) :
  (forall handler,
     handler ∈ call_handlers ->
     truthy (schedule_set_id_of handler) = true ->
     get_all_schedule_set_members unity call_handlers !! schedule_set_id_of handler
     = Some (get_schedule_set_members unity (format (schedule_set_id_of handler))))
  /\ (forall id members,
        get_all_schedule_set_members unity call_handlers !! id = Some members ->
        truthy id = true
        /\ members = get_schedule_set_members unity (format id)
        /\ exists handler, handler ∈ call_handlers /\ schedule_set_id_of handler = id).
Proof.
  split.
  - intros handler Hin Ht. rewrite members_map_lookup.
    rewrite bool_decide_eq_true_2; [done|]. split; [done|].
    apply list_elem_of_In, in_map, list_elem_of_In, Hin.
  - intros id members. rewrite members_map_lookup.
    case_bool_decide as H; [|done]. intros [= <-].
    destruct H as [Ht (handler & <- & Hin)%list_elem_of_In%in_map_iff].
    repeat split; [done|]. exists handler. by rewrite list_elem_of_In.
Qed.

Lemma members_in_run unity call_handlers handler :
  handler ∈ call_handlers ->
  truthy (schedule_set_id_of handler) = true ->
  dict_get (get_all_schedule_set_members unity call_handlers)
    (schedule_set_id_of handler) []
  = get_schedule_set_members unity (format (schedule_set_id_of handler)).
Proof.
  intros Hin Ht. unfold dict_get. rewrite members_map_lookup.
  rewrite bool_decide_eq_true_2; [done|]. split; [done|].
  apply list_elem_of_In, in_map, list_elem_of_In, Hin.
Qed.

(** X6: in a run, a handler of the list is resolved against the members
    fetched for its own schedule set and nothing else: the index built
    for all the handlers can be replaced by the one entry for this
    handler's id. *)
Theorem resolve_handler_in_run (unity : api) (call_handlers : list record)
    (schedule_map : gmap pyval pyval) (acc : list row) (handler : record) :
  handler ∈ call_handlers ->
  resolve_handler schedule_map
    (get_all_schedule_set_members unity call_handlers) acc handler
  = resolve_handler schedule_map
      {[ schedule_set_id_of handler :=
           get_schedule_set_members unity (format (schedule_set_id_of handler)) ]}
      acc handler.
Proof.
  intros Hin. unfold resolve_handler. fold (schedule_set_id_of handler).
  destruct (truthy (schedule_set_id_of handler)) eqn:Et; [|done]. cbn [negb].
  rewrite members_in_run by done.
  assert (dict_get
            ({[ schedule_set_id_of handler :=
                  get_schedule_set_members unity (format (schedule_set_id_of handler)) ]}
             : gmap pyval (list record))
            (schedule_set_id_of handler) []
          = get_schedule_set_members unity (format (schedule_set_id_of handler))) as ->;
    [|done].
  unfold dict_get. by rewrite lookup_singleton_eq.
Qed.

Lemma resolve_handler_in_run_witness :
  resolve_handler {[ Some "SC1" := Some "Business Hours" ]}
    (get_all_schedule_set_members SampleXml.unity [Sample.unnamed; Sample.operator])
    [] Sample.operator
  = resolve_handler {[ Some "SC1" := Some "Business Hours" ]}
      {[ schedule_set_id_of Sample.operator :=
           get_schedule_set_members SampleXml.unity
             (format (schedule_set_id_of Sample.operator)) ]}
      [] Sample.operator.
Proof.
  apply (resolve_handler_in_run SampleXml.unity [Sample.unnamed; Sample.operator]
           {[ Some "SC1" := Some "Business Hours" ]} [] Sample.operator).
  right. left.
Defined.

Lemma get_schedule_set_members_failed unity schedule_set_id :
  (forall content,
     schedulesetmembers_url unity schedule_set_id <> Response 200 content) ->
  get_schedule_set_members unity schedule_set_id = [].
Proof.
  unfold get_schedule_set_members. intros H.
  destruct (schedulesetmembers_url unity schedule_set_id) as [status content|]; [|done].
  destruct (Z.eqb_spec status 200) as [->|]; [by destruct (H content) | done].
Qed.

(** X7: when the member request for a handler's schedule set fails (a
    transport error, or a status other than 200), the run does not raise
    for that handler: its row reads "No Schedule". *)
Theorem failed_member_fetch_no_schedule (unity : api) (call_handlers : list record)
    (schedule_map : gmap pyval pyval) (acc : list row) (handler : record) :
  handler ∈ call_handlers ->
  (forall content,
     schedulesetmembers_url unity (format (schedule_set_id_of handler))
     <> Response 200 content) ->
  resolve_handler schedule_map
    (get_all_schedule_set_members unity call_handlers) acc handler
  = inr (acc ++ [{| CallHandlerName :=
                      dict_get handler "DisplayName" (Some "Unnamed Handler");
                    Schedule := "No Schedule" |}]).
Proof.
  intros Hin Hfail. unfold resolve_handler. fold (schedule_set_id_of handler).
  destruct (truthy (schedule_set_id_of handler)) eqn:Et; [|done]. cbn [negb].
  by rewrite members_in_run, (get_schedule_set_members_failed _ _ Hfail).
Qed.

Lemma failed_member_fetch_no_schedule_witness :
  resolve_handler {[ Some "SC1" := Some "Business Hours" ]}
    (get_all_schedule_set_members SampleRun.unity_members_down [Sample.operator])
    [] Sample.operator
  = inr ([] ++ [{| CallHandlerName :=
                     dict_get Sample.operator "DisplayName" (Some "Unnamed Handler");
                   Schedule := "No Schedule" |}]).
Proof.
  apply (failed_member_fetch_no_schedule SampleRun.unity_members_down
           [Sample.operator] {[ Some "SC1" := Some "Business Hours" ]} []
           Sample.operator).
  - left.
  - intros content. simpl. discriminate.
Defined.

(** ** The run *)

Lemma get_call_handlers_failed unity :
  failed (callhandlers_url unity) -> get_call_handlers unity = inr ([], []).
Proof.
  unfold get_call_handlers, failed. intros H.
  destruct (callhandlers_url unity) as [status content|]; [|done].
  destruct (Z.eqb_spec status 200) as [->|]; [by destruct (H content) | done].
Qed.

Lemma get_schedules_failed unity :
  failed (schedules_url unity) -> get_schedules unity = [].
Proof.
  unfold get_schedules, failed. intros H.
  destruct (schedules_url unity) as [status content|]; [|done].
  destruct (Z.eqb_spec status 200) as [->|]; [by destruct (H content) | done].
Qed.

(** X8: when the call handler request fails, or the handlers are
    classified without an exception and the schedule request fails (a
    transport error or a status other than 200 in either case), the run
    raises nothing and writes no report: it ends on the "could not
    retrieve" branch, whatever the other endpoints answer. *)
Theorem failed_fetch_could_not_retrieve (unity : api) :
  failed (callhandlers_url unity)
  \/ (returns (get_call_handlers unity) /\ failed (schedules_url unity)) ->
  main unity = inr CouldNotRetrieve.
Proof.
  unfold main. intros [Hc | [[[hs ws] Hret] Hs]].
  - rewrite (get_call_handlers_failed _ Hc). done.
  - rewrite Hret, bind_ret, (get_schedules_failed _ Hs). simpl.
    unfold join_and_report. by destruct (negb (is_empty hs)).
Qed.

Lemma failed_fetch_could_not_retrieve_witness :
  main SampleXml.unity_schedules_down = inr CouldNotRetrieve.
Proof.
  apply (failed_fetch_could_not_retrieve SampleXml.unity_schedules_down).
  right. split.
  - eexists. vm_compute. reflexivity.
  - intros content. simpl. discriminate.
Defined.

Lemma endswith_append s t suffix :
  Str.endswith t suffix = true -> Str.endswith (s +:+ t) suffix = true.
Proof.
  intros H. induction s as [|c s IH]; [done | by apply endswith_cons].
Qed.

Lemma endswith_app s suffix : Str.endswith (s +:+ suffix) suffix = true.
Proof. apply endswith_append, endswith_refl. Qed.

Lemma csv_file_lines rows :
  length (csv_file rows) = S (length rows)
  /\ Forall (fun line => Str.endswith line newline = true) (csv_file rows).
Proof.
  unfold csv_file. split; [simpl; by rewrite length_map|].
  constructor; [apply endswith_app|].
  apply Forall_forall. intros line (r & -> & _)%list_elem_of_fmap.
  unfold csv_line. do 2 apply endswith_append. apply endswith_app.
Qed.

(** X9: a run that reports has classified a non-empty handler list and
    fetched a non-empty schedule list; its rows are the resolver's, one
    per classified handler, and its file is a header line followed by one
    line per row, every line ending in a newline. *)
Theorem main_report_shape (unity : api) (rows : list row) (file : list string) :
  main unity = inr (Reported rows file) ->
  exists call_handlers warnings,
    get_call_handlers unity = inr (call_handlers, warnings)
    /\ call_handlers <> [] /\ get_schedules unity <> []
    /\ resolve_schedules call_handlers (get_schedules unity) []
         (get_all_schedule_set_members unity call_handlers) = inr rows
    /\ length rows = length call_handlers
    /\ file = csv_file rows
    /\ length file = S (length call_handlers)
    /\ Forall (fun line => Str.endswith line newline = true) file.
Proof.
  unfold main. intros H. inv_bind H. destruct a as [hs ws]. simpl in H.
  unfold join_and_report in H.
  destruct hs as [|h hs]; [discriminate|].
  destruct (get_schedules unity) as [|s ss] eqn:Es; [discriminate|].
  simpl in H. inv_bind H. injection H as <- <-.
  exists (h :: hs), ws.
  destruct (resolve_schedules_rows _ _ _ _ _ Ha0) as (sm & _ & Hall).
  apply Forall2_length in Hall.
  destruct (csv_file_lines a) as [Hlen Hlines].
  repeat split; try done.
  by rewrite Hlen, <- Hall.
Qed.

Lemma main_report_shape_witness :
  exists call_handlers warnings,
    get_call_handlers SampleXml.unity = inr (call_handlers, warnings)
    /\ call_handlers <> [] /\ get_schedules SampleXml.unity <> []
    /\ resolve_schedules call_handlers (get_schedules SampleXml.unity) []
         (get_all_schedule_set_members SampleXml.unity call_handlers)
       = inr [{| CallHandlerName := Some "Operator"; Schedule := "Business Hours" |}]
    /\ length [{| CallHandlerName := Some "Operator"; Schedule := "Business Hours" |}]
       = length call_handlers
    /\ ["CallHandlerName,Schedule" +:+ newline; "Operator,Business Hours" +:+ newline]
       = csv_file [{| CallHandlerName := Some "Operator"; Schedule := "Business Hours" |}]
    /\ length ["CallHandlerName,Schedule" +:+ newline; "Operator,Business Hours" +:+ newline]
       = S (length call_handlers)
    /\ Forall (fun line => Str.endswith line newline = true)
         ["CallHandlerName,Schedule" +:+ newline; "Operator,Business Hours" +:+ newline].
Proof.
  apply (main_report_shape SampleXml.unity
           [{| CallHandlerName := Some "Operator"; Schedule := "Business Hours" |}]
           ["CallHandlerName,Schedule" +:+ newline; "Operator,Business Hours" +:+ newline]).
  vm_compute. reflexivity.
Defined.

(** ** The report file *)

Lemma count_char_app c a b :
  count_char c (a +:+ b) = count_char c a + count_char c b.
Proof. induction a as [|x a IH]; simpl; [done | rewrite IH; lia]. Qed.

Lemma commas_join names :
  commas (Str.join ", " names)
  = (length names - 1) + sum_list (map commas names).
Proof.
  unfold commas. induction names as [|n [|n' rest] IH].
  - done.
  - simpl. lia.
  - change (Str.join ", " (n :: n' :: rest))
      with (n +:+ ", " +:+ Str.join ", " (n' :: rest)).
    rewrite !count_char_app, IH. simpl. lia.
Qed.

(** X10: the writer quotes nothing: a line has one comma for the
    separator plus every comma of the name and of the [Schedule], and a
    [Schedule] joined from n schedule names has n - 1 commas of its own
    plus those inside the names.  A handler with two or more schedules
    therefore always gives a line of more than two comma-separated
    fields under the two-field header. *)
Theorem csv_line_commas (name : pyval) (names : list string) :
  commas (csv_line {| CallHandlerName := name;
                      Schedule := Str.join ", " names |})
  = commas (format name) + 1 + (length names - 1) + sum_list (map commas names).
Proof.
  unfold csv_line. cbn [CallHandlerName Schedule]. unfold commas at 1.
  rewrite !count_char_app. fold (commas (format name)).
  fold (commas (Str.join ", " names)). rewrite commas_join.
  change (count_char "," ",") with 1. change (count_char "," newline) with 0. lia.
Qed.

(** ** The decoder on the documents of the API *)

Lemma quiet_not_emitted element_name elem :
  quiet element_name elem -> tag_ends_with element_name elem = false.
Proof.
  unfold quiet. destruct elem as [tag text children].
  rewrite end_order_children, List.filter_app. cbn [List.filter].
  destruct (tag_ends_with element_name (Element tag text children)); [|done].
  intros H. by apply app_eq_nil in H as [_ ?].
Qed.

Lemma quiet_children_filter element_name children :
  Forall (quiet element_name) children ->
  List.filter (tag_ends_with element_name) (flat_map end_order children) = [].
Proof.
  induction 1 as [|c cs Hc _ IH]; [done|].
  cbn [flat_map]. by rewrite List.filter_app, Hc, IH.
Qed.

Lemma record_for_quiet element_name item :
  Forall (quiet element_name) (children_of item) ->
  record_for element_name item = child_record (children_of item).
Proof.
  unfold record_for, child_record. intros H. generalize (∅ : record).
  induction H as [|c cs Hc _ IH]; intros r; [done|]. cbn [foldl]. cbv beta.
  assert (text_seen element_name c = text_of c) as ->; [|apply IH].
  unfold text_seen. by rewrite (quiet_not_emitted _ _ Hc).
Qed.

(** X11: on a flat document (a root that is not itself emitted, whose
    children all are, with no element to emit below them) the decoder
    returns exactly one record per child of the root, in document order,
    and each record is built from that child's own children with their
    texts as they are in the document. *)
Theorem parse_large_xml_flat (root : element) (element_name : string) :
  flat_document element_name root ->
  parse_large_xml root element_name
  = map (fun item => child_record (children_of item)) (children_of root).
Proof.
  intros [Hroot Hitems]. unfold parse_large_xml. rewrite iterparse_end_spec.
  destruct root as [tag text items]. cbn [fst children_of] in *.
  rewrite end_order_children, List.filter_app. cbn [List.filter].
  rewrite Hroot, app_nil_r. clear Hroot.
  induction Hitems as [|item rest [Hitem Hquiet] _ IH]; [done|].
  cbn [flat_map]. rewrite List.filter_app, map_app, IH.
  destruct item as [itag itext fields]. cbn [children_of] in *.
  rewrite end_order_children, List.filter_app, (quiet_children_filter _ _ Hquiet).
  cbn [List.filter app]. rewrite Hitem. cbn [map app].
  by rewrite (record_for_quiet _ (Element itag itext fields) Hquiet).
Qed.

Lemma sample_members_flat : flat_document "ScheduleSetMember" SampleXml.members.
Proof.
  split; [vm_compute; reflexivity|].
  repeat constructor; vm_compute; reflexivity.
Qed.

Lemma parse_large_xml_flat_witness :
  parse_large_xml SampleXml.members "ScheduleSetMember"
  = map (fun item => child_record (children_of item)) (children_of SampleXml.members).
Proof.
  apply (parse_large_xml_flat SampleXml.members "ScheduleSetMember").
  exact sample_members_flat.
Defined.

(** *** Tags *)



Lemma has_brace_app s t : has_brace (s +:+ t) = has_brace s || has_brace t.
Proof.
  induction s as [|c s IH]; [done|].
  change (has_brace (String c s +:+ t))
    with (Ascii.eqb "}" c || has_brace (s +:+ t)).
  change (has_brace (String c s)) with (Ascii.eqb "}" c || has_brace s).
  by rewrite IH, orb_assoc.
Qed.

Lemma after_last_brace_plain s :
  has_brace s = false -> Str.after_last_brace s = s.
Proof.
  destruct s as [|c s]; [done|].
  change (has_brace (String c s)) with (Ascii.eqb "}" c || has_brace s).
  intros [Hc Hs]%orb_false_iff.
  change (Str.after_last_brace (String c s))
    with (if has_brace s then Str.after_last_brace s
          else if Ascii.eqb c "}" then s else String c s).
  rewrite Hs. rewrite Ascii.eqb_sym in Hc. by rewrite Hc.
Qed.

Lemma after_last_brace_app prefix local :
  has_brace local = false ->
  Str.after_last_brace (prefix +:+ "}" +:+ local) = local.
Proof.
  intros Hl. induction prefix as [|c prefix IH].
  - change (Str.after_last_brace ("" +:+ "}" +:+ local))
      with (if has_brace local then Str.after_last_brace local
            else if Ascii.eqb "}" "}" then local else String "}" local).
    by rewrite Hl.
  - change (Str.after_last_brace (String c prefix +:+ "}" +:+ local))
      with (if has_brace (prefix +:+ "}" +:+ local)
            then Str.after_last_brace (prefix +:+ "}" +:+ local)
            else if Ascii.eqb c "}" then prefix +:+ "}" +:+ local
                 else String c (prefix +:+ "}" +:+ local)).
    rewrite !has_brace_app. replace (has_brace "}") with true by done.
    rewrite orb_true_l, orb_true_r. apply IH.
Qed.

(** X13: the field name of a child is what follows the last closing
    brace of its tag: for a local name without a brace, a tag that is the
    local name alone and a tag that puts anything ending in a brace (a
    namespace) in front of it give the same field name, the local name. *)
Theorem field_name_strips_namespace (local prefix : string) (text : pyval)
    (children : list element) :
  has_brace local = false ->
  local_tag (Element local text children) = local
  /\ local_tag (Element (prefix +:+ "}" +:+ local) text children) = local.
Proof.
  intros Hl. unfold local_tag. cbn [tag_of].
  split; [by apply after_last_brace_plain | by apply after_last_brace_app].
Qed.

Lemma field_name_strips_namespace_witness :
  local_tag (Element "DisplayName" (Some "Operator") []) = "DisplayName"
  /\ local_tag (Element ("{urn:x" +:+ "}" +:+ "DisplayName") (Some "Operator") [])
     = "DisplayName".
Proof.
  apply (field_name_strips_namespace "DisplayName" "{urn:x" (Some "Operator") []).
  vm_compute. reflexivity.
Defined.

(** *** Records *)

Lemma child_record_dom_from (r : record) children :
  dom (foldl (fun r child =>
                <[Str.after_last_brace (tag_of child) := text_of child]> r)
             r children)
  = dom r ∪ list_to_set (map local_tag children).
Proof.
  revert r. induction children as [|c cs IH]; intros r; cbn [foldl map].
  - set_solver.
  - rewrite IH, dom_insert_L. unfold local_tag. set_solver.
Qed.

Lemma size_list_to_set_le (l : list string) :
  size (list_to_set l : gset string) <= length l.
Proof.
  induction l as [|x l IH]; cbn [list_to_set length].
  - rewrite size_empty. lia.
  - destruct (decide (x ∈ (list_to_set l : gset string))) as [Hin|Hout].
    + replace ({[x]} ∪ list_to_set l : gset string) with (list_to_set l : gset string)
        by set_solver. lia.
    + rewrite size_union by set_solver. rewrite size_singleton. lia.
Qed.

(** X14: the field names of a record are exactly the namespace-stripped
    tags of the element's children, so a record never has more fields
    than the element has children, and an element without children gives
    the empty record. *)
Theorem child_record_fields (children : list element) :
  dom (child_record children) = list_to_set (map local_tag children)
  /\ size (child_record children) <= length children
  /\ (children = [] -> child_record children = ∅).
Proof.
  assert (dom (child_record children) = list_to_set (map local_tag children)) as Hdom.
  { unfold child_record. rewrite child_record_dom_from, dom_empty_L.
    apply (left_id_L ∅ (∪)). }
  split; [done|]. split; [|by intros ->].
  rewrite <- size_dom, Hdom.
  etrans; [apply size_list_to_set_le|]. by rewrite length_map.
Qed.

(** *** What the generator leaves of the tree *)

Lemma left_behind_cleared element_name elem :
  Forall (fun e => tag_ends_with element_name e = true ->
                   text_of e = None /\ children_of e = [])
         (end_order (left_behind element_name elem)).
Proof.
  induction elem as [tag text children IH] using element_nested_ind.
  rewrite left_behind_children.
  destruct (Str.endswith tag element_name) eqn:E.
  - repeat constructor.
  - rewrite end_order_children. apply Forall_app. split.
    + induction IH as [|c cs Hc _ IHcs]; [constructor|].
      cbn [map flat_map]. apply Forall_app. by split.
    + constructor; [|constructor]. unfold tag_ends_with. cbn [tag_of].
      by rewrite E.
Qed.

(** X15: after decoding, every element of the tree whose tag ends with
    the requested name has been cleared: it has no text and no children
    left.  The tree itself is not pruned: an element that is not emitted
    keeps every one of its children, the cleared ones included. *)
Theorem emitted_elements_cleared (element_name : string) (xml_data : element) :
  Forall (fun e => tag_ends_with element_name e = true ->
                   text_of e = None /\ children_of e = [])
         (end_order (iterparse_end element_name xml_data).2)
  /\ (tag_ends_with element_name xml_data = false ->
      length (children_of (iterparse_end element_name xml_data).2)
      = length (children_of xml_data)).
Proof.
  rewrite iterparse_end_spec. cbn [snd]. split; [apply left_behind_cleared|].
  destruct xml_data as [tag text children]. unfold tag_ends_with. cbn [tag_of].
  intros E. rewrite left_behind_children, E. cbn [children_of].
  apply length_map.
Qed.

(** ** More on the classifier *)

Lemma deduplicate_counts handlers unique warnings unique' warnings' :
  deduplicate handlers unique warnings = inr (unique', warnings') ->
  length unique' + length warnings'
  = length unique + length warnings + length handlers.
Proof.
  revert unique warnings.
  induction handlers as [|handler rest IH]; simpl; intros unique warnings H.
  - injection H as <- <-. lia.
  - inv_bind H. destruct (negb (key_in a unique)).
    + apply IH in H. rewrite length_app in H. simpl in H. lia.
    + apply IH in H. rewrite length_app in H. simpl in H. lia.
Qed.

Lemma deduplicate_covers handlers unique warnings unique' warnings' :
  deduplicate handlers unique warnings = inr (unique', warnings') ->
  Forall (fun handler =>
            exists key, composite_key handler = inr key /\ key ∈ unique'.*1)
         handlers.
Proof.
  revert unique warnings.
  induction handlers as [|handler rest IH]; simpl; intros unique warnings H.
  - constructor.
  - inv_bind H. rename a into key.
    destruct (negb (key_in key unique)) eqn:Hin.
    + constructor; [|by eapply IH].
      exists key. split; [done|].
      apply deduplicate_unique in H as (new & -> & _).
      rewrite !fmap_app. set_solver.
    + constructor; [|by eapply IH].
      exists key. split; [done|].
      apply deduplicate_unique in H as (new & -> & _).
      rewrite fmap_app. apply elem_of_app. left.
      apply name_in_elem. rewrite <- key_in_keys.
      by apply negb_false_iff in Hin.
Qed.

Lemma entries_keys (new : list (string * record)) :
  Forall (fun entry => composite_key entry.2 = inr entry.1) new ->
  Forall2 (fun handler key => composite_key handler = inr key) new.*2 new.*1.
Proof. induction 1; csimpl; by constructor. Qed.

Lemma classify_parts all_handlers kept warnings :
  classify all_handlers = inr (kept, warnings) ->
  exists selected unique,
    system_handlers all_handlers = inr selected
    /\ deduplicate selected [] [] = inr (unique, warnings)
    /\ kept = unique.*2.
Proof.
  unfold classify. intros H. inv_bind H. inv_bind H. destruct a0 as [unique ws].
  injection H as <- <-. eauto.
Qed.

(** X16: the handlers the classifier returns all passed the selection
    condition, and their composite keys are pairwise distinct. *)
Theorem classify_keys_distinct (all_handlers kept : list record)
    (warnings : list string) :
  classify all_handlers = inr (kept, warnings) ->
  Forall (fun handler => is_system_handler handler = inr true) kept
  /\ exists keys,
       Forall2 (fun handler key => composite_key handler = inr key) kept keys
       /\ NoDup keys.
Proof.
  intros (selected & unique & Hsel & Hded & ->)%classify_parts.
  apply system_handlers_selected in Hsel as [_ Hpass].
  apply deduplicate_unique in Hded as (new & -> & Hsub & Hkeys & Hnodup).
  simpl in *. split.
  - apply Forall_forall. intros handler Hh.
    eapply Forall_forall in Hpass; [done|]. by eapply elem_of_sublist.
  - exists new.*1. split; [by apply entries_keys | apply Hnodup, NoDup_nil_2].
Qed.

Lemma classify_keys_distinct_witness :
  Forall (fun handler => is_system_handler handler = inr true)
    [Sample.operator; Sample.sales]
  /\ exists keys,
       Forall2 (fun handler key => composite_key handler = inr key)
         [Sample.operator; Sample.sales] keys
       /\ NoDup keys.
Proof.
  apply (classify_keys_distinct
           [Sample.operator; Sample.mailbox; Sample.sales; Sample.operator_shouting]
           [Sample.operator; Sample.sales]
           [duplicate_warning Sample.operator_shouting "operator|"]).
  vm_compute. reflexivity.
Defined.

(** X17: no selected handler is lost without trace: the handlers kept
    and the warnings logged together count the selected handlers, and
    every selected handler has its key among the keys of the kept ones. *)
Theorem classify_accounts_for_selected (all_handlers kept : list record)
    (warnings : list string) :
  classify all_handlers = inr (kept, warnings) ->
  exists selected,
    system_handlers all_handlers = inr selected
    /\ length kept + length warnings = length selected
    /\ Forall (fun handler =>
                 exists keeper, keeper ∈ kept
                   /\ composite_key keeper = composite_key handler
                   /\ returns (composite_key handler))
              selected.
Proof.
  intros (selected & unique & Hsel & Hded & ->)%classify_parts.
  exists selected. split; [done|]. split.
  - apply deduplicate_counts in Hded. rewrite length_fmap. simpl in Hded. lia.
  - pose proof (deduplicate_covers _ _ _ _ _ Hded) as Hcov.
    apply deduplicate_unique in Hded as (new & -> & _ & Hkeys & _). simpl in *.
    eapply Forall_impl; [exact Hcov|]. intros handler (key & Hkey & Hin).
    apply list_elem_of_fmap in Hin as ([k keeper] & -> & Hin).
    exists keeper. split; [|split].
    + apply list_elem_of_fmap. by exists (k, keeper).
    + eapply Forall_forall in Hkeys; [|done]. simpl in *. congruence.
    + by eexists.
Qed.

Lemma classify_accounts_for_selected_witness :
  exists selected,
    system_handlers
      [Sample.operator; Sample.mailbox; Sample.sales; Sample.operator_shouting]
    = inr selected
    /\ length [Sample.operator; Sample.sales]
       + length [duplicate_warning Sample.operator_shouting "operator|"]
       = length selected
    /\ Forall (fun handler =>
                 exists keeper, keeper ∈ [Sample.operator; Sample.sales]
                   /\ composite_key keeper = composite_key handler
                   /\ returns (composite_key handler))
              selected.
Proof.
  apply (classify_accounts_for_selected
           [Sample.operator; Sample.mailbox; Sample.sales; Sample.operator_shouting]
           [Sample.operator; Sample.sales]
           [duplicate_warning Sample.operator_shouting "operator|"]).
  vm_compute. reflexivity.
Defined.

(** *** When the classifier raises *)

Lemma is_system_handler_cases handler :
  (flags_shape handler /\ returns (is_system_handler handler))
  \/ (~ flags_shape handler /\ handler !! "Undeletable" = Some None
      /\ is_system_handler handler = inl AttributeError)
  \/ (~ flags_shape handler /\ handler !! "DisplayName" = Some None
      /\ (is_system_handler handler = inl AttributeError
          \/ is_system_handler handler = inr true)).
Proof.
  unfold flags_shape, not_null.
  destruct (handler !! "Undeletable") as [[u|]|] eqn:Eu.
  2: { right. left. repeat split; [by intros [? _] | ].
       unfold is_system_handler, dict_get. by rewrite Eu. }
  all: destruct (handler !! "DisplayName") as [[n|]|] eqn:En.
  all: try (left; split; [done|];
            rewrite is_system_handler_spec; [by eexists|];
            unfold flags_shape, not_null; by rewrite Eu, En).
  all: right; right; repeat split; [by intros [_ ?] |].
  all: unfold is_system_handler, dict_get; rewrite Eu, En; simpl.
  all: try destruct (String.eqb (Str.lower u) "true"); simpl; auto.
  all: destruct (truthy _); simpl; auto.
Qed.

Lemma composite_key_cases handler :
  (not_null handler "DisplayName" /\ returns (composite_key handler))
  \/ (handler !! "DisplayName" = Some None
      /\ composite_key handler = inl AttributeError).
Proof.
  unfold composite_key, dict_get, not_null.
  destruct (handler !! "DisplayName") as [[n|]|]; simpl.
  - left. split; [done | by eexists].
  - by right.
  - left. split; [done | by eexists].
Qed.

Lemma system_handlers_cases all_handlers :
  (exists selected, system_handlers all_handlers = inr selected
     /\ Forall (fun handler =>
                  returns (is_system_handler handler)
                  /\ (is_system_handler handler = inr true -> handler ∈ selected))
               all_handlers)
  \/ (system_handlers all_handlers = inl AttributeError
      /\ ~ Forall flags_shape all_handlers).
Proof.
  induction all_handlers as [|handler rest IH]; cbn [system_handlers].
  - left. exists []. split; [done | constructor].
  - destruct (is_system_handler_cases handler)
      as [[Hshape [b Hb]] | [(Hbad & _ & Hraise) | (Hbad & _ & [Hraise | Hsel])]].
    2,3: right; rewrite Hraise; split; [done | by intros [? _]%Forall_cons].
    + rewrite Hb, bind_ret.
      destruct IH as [(selected & -> & Hall) | [-> Hnot]].
      * left. rewrite bind_ret. eexists. split; [done|].
        constructor.
        -- split; [by eexists|]. intros Ht. rewrite Hb in Ht.
           injection Ht as ->. by left.
        -- eapply Forall_impl; [exact Hall|]. intros h [Hret Hin].
           split; [done|]. intros Ht. destruct b; [right|]; by apply Hin.
      * right. split; [done|]. by intros [_ ?]%Forall_cons.
    + rewrite Hsel, bind_ret.
      destruct IH as [(selected & -> & Hall) | [-> Hnot]].
      * left. rewrite bind_ret. eexists. split; [done|].
        constructor.
        -- split; [by eexists|]. intros _. by left.
        -- eapply Forall_impl; [exact Hall|]. intros h [Hret Hin].
           split; [done|]. intros Ht. right. by apply Hin.
      * right. split; [done|]. by intros [_ ?]%Forall_cons.
Qed.

Lemma deduplicate_cases handlers unique warnings :
  (Forall (fun handler => not_null handler "DisplayName") handlers
   /\ returns (deduplicate handlers unique warnings))
  \/ (~ Forall (fun handler => not_null handler "DisplayName") handlers
      /\ deduplicate handlers unique warnings = inl AttributeError).
Proof.
  revert unique warnings.
  induction handlers as [|handler rest IH]; intros unique warnings;
    cbn [deduplicate].
  - left. split; [constructor | by eexists].
  - destruct (composite_key_cases handler) as [[Hn [key ->]] | [Hnull ->]].
    + rewrite bind_ret.
      destruct (negb (key_in key unique)).
      * destruct (IH (unique ++ [(key, handler)]) warnings) as [[Hall Hret] | [Hnot ->]].
        -- left. split; [by constructor | done].
        -- right. split; [by intros [_ ?]%Forall_cons | done].
      * destruct (IH unique (warnings ++ [duplicate_warning handler key]))
          as [[Hall Hret] | [Hnot ->]].
        -- left. split; [by constructor | done].
        -- right. split; [by intros [_ ?]%Forall_cons | done].
    + right. split; [|done]. intros [Hn _]%Forall_cons. by apply Hn.
Qed.

(** X18: the classifier returns exactly when no handler of the input has
    a null [Undeletable] or a null [DisplayName]; otherwise it raises,
    and what it raises is always [AttributeError].  One such handler
    anywhere in the input loses the whole classification. *)
Theorem classify_returns_iff (all_handlers : list record) :
  (returns (classify all_handlers) <-> Forall flags_shape all_handlers)
  /\ (~ Forall flags_shape all_handlers ->
      classify all_handlers = inl AttributeError).
Proof.
  assert (Forall flags_shape all_handlers ->
          returns (classify all_handlers)) as Hret.
  { intros Hall. unfold classify.
    destruct (system_handlers_cases all_handlers)
      as [(selected & Hsel & _) | [_ Hnot]]; [|done].
    rewrite Hsel, bind_ret.
    apply system_handlers_selected in Hsel as [Hsub _].
    destruct (deduplicate_cases selected [] []) as [[_ [r ->]] | [Hnot _]].
    - by eexists.
    - destruct Hnot. apply Forall_forall. intros h Hh.
      eapply Forall_forall in Hall; [apply Hall|]. by eapply elem_of_sublist. }
  assert (~ Forall flags_shape all_handlers ->
          classify all_handlers = inl AttributeError) as Hraise.
  { intros Hnot. unfold classify.
    destruct (system_handlers_cases all_handlers)
      as [(selected & Hsel & Hall) | [-> _]]; [|done].
    rewrite Hsel, bind_ret.
    destruct (deduplicate_cases selected [] []) as [[Hnames _] | [_ ->]]; [|done].
    destruct Hnot. apply Forall_forall. intros h Hh.
    eapply Forall_forall in Hall as [[b Hb] Hin]; [|done].
    destruct (is_system_handler_cases h)
      as [[Hshape _] | [(_ & _ & Hr) | (_ & Hnull & [Hr | Hs])]];
      [done | congruence | congruence |].
    apply Hin in Hs. eapply Forall_forall in Hnames; [|done].
    by destruct Hnames. }
  split; [|done]. split; [|done].
  intros [r Hr]. destruct (decide (Forall flags_shape all_handlers)) as [|Hnot];
    [done|].
  rewrite (Hraise Hnot) in Hr. discriminate.
Qed.

(** *** Names that differ in case or padding *)

Lemma lower_ascii_idem c : Str.lower_ascii (Str.lower_ascii c) = Str.lower_ascii c.
Proof. destruct c as [[] [] [] [] [] [] [] []]; reflexivity. Qed.

Lemma isspace_lower_ascii c : Str.isspace (Str.lower_ascii c) = Str.isspace c.
Proof. destruct c as [[] [] [] [] [] [] [] []]; reflexivity. Qed.

Lemma lower_idem s : Str.lower (Str.lower s) = Str.lower s.
Proof. induction s as [|c s IH]; simpl; [done | by rewrite lower_ascii_idem, IH]. Qed.

Lemma lstrip_lower s : Str.lstrip (Str.lower s) = Str.lower (Str.lstrip s).
Proof.
  induction s as [|c s IH]; [done|]. cbn [Str.lower Str.lstrip].
  rewrite isspace_lower_ascii. by destruct (Str.isspace c).
Qed.

Lemma rstrip_lower s : Str.rstrip (Str.lower s) = Str.lower (Str.rstrip s).
Proof.
  induction s as [|c s IH]; [done|]. cbn [Str.lower Str.rstrip].
  rewrite IH, isspace_lower_ascii.
  destruct (Str.rstrip s); [by destruct (Str.isspace c) | done].
Qed.

Lemma lstrip_clean s : starts_clean (Str.lstrip s).
Proof.
  induction s as [|c s IH]; [done|]. cbn [Str.lstrip].
  by destruct (Str.isspace c) eqn:E.
Qed.

Lemma lstrip_of_clean s : starts_clean s -> Str.lstrip s = s.
Proof. destruct s as [|c s]; [done|]. simpl. by intros ->. Qed.

Lemma rstrip_clean s : starts_clean s -> starts_clean (Str.rstrip s).
Proof.
  destruct s as [|c s]; [done|]. cbn [starts_clean Str.rstrip]. intros Hc.
  rewrite Hc. by destruct (Str.rstrip s).
Qed.

Lemma rstrip_idem s : Str.rstrip (Str.rstrip s) = Str.rstrip s.
Proof.
  induction s as [|c s IH]; [done|]. cbn [Str.rstrip].
  destruct (Str.rstrip s) as [|c' r] eqn:E.
  - destruct (Str.isspace c) eqn:Ec; [done|]. cbn [Str.rstrip]. by rewrite Ec.
  - cbn [Str.rstrip] in *. by rewrite IH.
Qed.

Lemma strip_idem s : Str.strip (Str.strip s) = Str.strip s.
Proof.
  unfold Str.strip.
  rewrite (lstrip_of_clean (Str.rstrip (Str.lstrip s)))
    by apply rstrip_clean, lstrip_clean.
  apply rstrip_idem.
Qed.

Lemma normal_form_fixed name :
  Str.lower (Str.strip (Str.lower (Str.strip name))) = Str.lower (Str.strip name).
Proof.
  unfold Str.strip at 1. rewrite lstrip_lower, rstrip_lower.
  fold (Str.strip (Str.strip name)). by rewrite strip_idem, lower_idem.
Qed.

(** X19: replacing a handler's [DisplayName] by its trimmed, lowercased
    form changes neither the selection condition nor the composite key:
    names that differ only in letter case or in surrounding white space
    are the same name to the classifier. *)
Theorem normalised_name_same_handler (handler : record) (name : string) :
  handler !! "DisplayName" = Some (Some name) ->
  is_system_handler (normalised handler name) = is_system_handler handler
  /\ composite_key (normalised handler name) = composite_key handler.
Proof.
  intros Hn. unfold is_system_handler, composite_key, normalised, dict_get.
  rewrite !lookup_insert_eq, !lookup_insert_ne, Hn by done. simpl.
  by rewrite normal_form_fixed.
Qed.

Lemma normalised_name_same_handler_witness :
  is_system_handler (normalised Sample.operator_shouting "  OPERATOR ")
  = is_system_handler Sample.operator_shouting
  /\ composite_key (normalised Sample.operator_shouting "  OPERATOR ")
     = composite_key Sample.operator_shouting.
Proof.
  apply (normalised_name_same_handler Sample.operator_shouting "  OPERATOR ").
  vm_compute. reflexivity.
Defined.

(** ** What the loop body can raise, and why *)

Lemma resolved_schedules_raises schedule_map members e :
  resolved_schedules schedule_map members = inl e ->
  (e = AttributeError
   /\ Exists (fun member => member !! "Exclude" = Some None) members)
  \/ (e = KeyError "ScheduleObjectId"
      /\ Exists (fun member => excluded member = false
                               /\ member !! "ScheduleObjectId" = None) members).
Proof.
  induction members as [|m rest IH]; [done|]. cbn [resolved_schedules].
  unfold dict_get, excluded, equals_ignoring_case.
  destruct (m !! "Exclude") as [[ex|]|] eqn:E; simpl.
  2: { intros [= <-]. left. split; [done | by left]. }
  - destruct (String.eqb (Str.lower ex) "true") eqn:Eex; simpl.
    + intros [He | He]%IH; [left | right];
        (split; [apply He | right; apply He]).
    + unfold subscript. destruct (m !! "ScheduleObjectId") as [sid|] eqn:Es; simpl.
      * destruct (resolved_schedules schedule_map rest) as [e'|more]; [|done].
        simpl. intros [= <-].
        destruct (IH eq_refl) as [He | He]; [left | right];
          (split; [apply He | right; apply He]).
      * intros [= <-]. right. split; [done|]. left.
        unfold excluded, equals_ignoring_case. by rewrite E, Eex.
  - unfold subscript. destruct (m !! "ScheduleObjectId") as [sid|] eqn:Es; simpl.
    + destruct (resolved_schedules schedule_map rest) as [e'|more]; [|done].
      simpl. intros [= <-].
      destruct (IH eq_refl) as [He | He]; [left | right];
        (split; [apply He | right; apply He]).
    + intros [= <-]. right. split; [done|]. left.
      unfold excluded, equals_ignoring_case. by rewrite E.
Qed.

Lemma resolved_schedules_values schedule_map members resolved :
  resolved_schedules schedule_map members = inr resolved ->
  Forall (fun v => v = Some "Unknown Schedule"
                   \/ exists id, schedule_map !! id = Some v) resolved.
Proof.
  revert resolved. induction members as [|m rest IH]; intros resolved.
  - intros [= <-]. constructor.
  - cbn [resolved_schedules]. intros H. inv_bind H.
    destruct (negb (String.eqb a "true")); [|by apply IH].
    inv_bind H. inv_bind H. injection H as <-.
    constructor; [|by apply IH].
    unfold dict_get. destruct (schedule_map !! a0) eqn:Ev; [right | left]; eauto.
Qed.

Lemma join_raises sep parts e :
  join sep parts = inl e -> e = TypeError /\ None ∈ parts.
Proof.
  unfold join. destruct (all_str parts) as [e'|ss] eqn:Ea; [|done].
  simpl. intros [= <-]. revert e' Ea.
  induction parts as [|[s|] rest IH]; intros e' Ea; [done | |].
  - cbn [all_str] in Ea. destruct (all_str rest) as [e''|ss]; [|done].
    simpl in Ea. injection Ea as <-. destruct (IH _ eq_refl) as [-> Hin].
    split; [done | by right].
  - injection Ea as <-. split; [done | by left].
Qed.

(** X20: every exception of the loop body has its cause in the data.
    [AttributeError]: a member of the handler's schedule set has a null
    [Exclude].  [KeyError]: the key is "ScheduleObjectId" and a member
    that is not excluded lacks that field.  [TypeError]: the schedule
    lookup holds a null display name.  Nothing else is raised. *)
Theorem resolve_handler_raises (schedule_map : gmap pyval pyval)
    (idx : gmap pyval (list record)) (acc : list row) (handler : record) (e : exn) :
  resolve_handler schedule_map idx acc handler = inl e ->
  (e = AttributeError
   /\ Exists (fun member => member !! "Exclude" = Some None)
        (members_of idx handler))
  \/ (e = KeyError "ScheduleObjectId"
      /\ Exists (fun member => excluded member = false
                               /\ member !! "ScheduleObjectId" = None)
           (members_of idx handler))
  \/ (e = TypeError /\ exists id, schedule_map !! id = Some None).
Proof.
  unfold resolve_handler, members_of, schedule_set_id_of.
  destruct (negb (truthy _)); [done|].
  destruct (is_empty (dict_get idx _ _)); [done|].
  destruct (resolved_schedules _ _) as [e'|resolved] eqn:Er; simpl.
  - intros [= <-]. apply resolved_schedules_raises in Er as [He | He]; auto.
  - destruct (is_empty resolved); [done|].
    destruct (join ", " resolved) as [e'|joined] eqn:Ej; [|done]. simpl.
    intros [= <-]. apply join_raises in Ej as [-> Hnone].
    right. right. split; [done|].
    apply resolved_schedules_values in Er.
    eapply Forall_forall in Er as [? | ?]; [| |exact Hnone]; done.
Qed.

Lemma resolve_handler_raises_witness :
  (AttributeError = AttributeError
   /\ Exists (fun member => member !! "Exclude" = Some None)
        (members_of (Sample.index_of [Sample.member_null_exclude]) Sample.operator))
  \/ (AttributeError = KeyError "ScheduleObjectId"
      /\ Exists (fun member => excluded member = false
                               /\ member !! "ScheduleObjectId" = None)
           (members_of (Sample.index_of [Sample.member_null_exclude]) Sample.operator))
  \/ (AttributeError = TypeError
      /\ exists id,
           ({[ Some "SC1" := Some "Business Hours" ]} : gmap pyval pyval) !! id
           = Some None).
Proof.
  apply (resolve_handler_raises {[ Some "SC1" := Some "Business Hours" ]}
           (Sample.index_of [Sample.member_null_exclude]) [] Sample.operator
           AttributeError).
  vm_compute. reflexivity.
Defined.
